(** * Doc-RAG crawler: [doc_rag/scraper.py] ([DocumentationScraper]) and
    the indexing of [doc_rag/embedder.py] ([DocumentEmbedder])

    Shallow embedding of the crawl-and-extract core, of the chunking and
    storing of the scraped documents, and of their composition in the
    [index] commands.

    - Python [str] is modelled as [string]; a character is one byte read as a
      Latin-1 code point.
    - The libraries the scraper calls ([urllib.parse.urljoin], the bracketed
      host check of [urlsplit], [requests.get], BeautifulSoup's parser,
      [markdownify] and [pypdf]) are the fields of the class [PyLib]; the
      parts of [urllib.parse] the scraper relies on ([urlsplit], [urlparse])
      are written out.
    - Exceptions are the constructors of [exn]; a computation that can raise
      returns [res A]; the stateful methods run in the state/exception monad
      [PyM] over the scraper's mutable attributes, where a mutation made
      before an exception persists, as in Python.
    - [DocumentEmbedder.embed_documents] takes the sentence encoder and
      the Chroma collection's [add] as functions, both of which can raise,
      and returns the [collection.add] calls it makes. *)

From Stdlib Require Import Ascii String ZArith QArith.
From stdpp Require Import base list gmap sets strings pretty.

Local Open Scope Z_scope.

(* ------------------------------------------------------------------ *)
(** ** Python exceptions and results *)

Inductive exn :=
| ValueError          (* urllib.parse: invalid bracketed netloc *)
| AttributeError      (* method call on [None] *)
| HTTPError           (* requests: [raise_for_status] on 4xx/5xx *)
| RequestException    (* requests: connection error, timeout, bad URL *)
| PdfError            (* pypdf: malformed input *)
| IndexError          (* list.pop on an empty list *)
| ChromaError.        (* chromadb: a rejected [collection.add] *)

Inductive res (A : Type) : Type :=
| Ok (a : A)
| Err (e : exn).
Arguments Ok {A} a.
Arguments Err {A} e.

Definition res_bind {A B} (r : res A) (k : A -> res B) : res B :=
  match r with Ok a => k a | Err e => Err e end.

Notation "'let?' x := r 'in' k" := (res_bind r (fun x => k))
  (at level 200, x name, r at level 100, k at level 200).

(* ------------------------------------------------------------------ *)
(** ** Python string primitives *)

Module Py.

Definition chr (n : nat) : ascii := ascii_of_nat n.
Definition ord (a : ascii) : nat := nat_of_ascii a.

Definition char_eqb (a b : ascii) : bool := bool_decide (a = b).

(** [c in s] for a character [c]. *)
Fixpoint has (c : ascii) (s : string) : bool :=
  match s with
  | EmptyString => false
  | String a r => char_eqb a c || has c r
  end.

(** [s.startswith(pre)] *)
Definition startswith (s pre : string) : bool := String.prefix pre s.

(** [s.endswith(suf)] *)
Fixpoint endswith (s suf : string) : bool :=
  String.eqb s suf ||
  match s with
  | EmptyString => false
  | String _ r => endswith r suf
  end.

(** [s.endswith((suf1, suf2, ...))] *)
Definition endswith_any (s : string) (sufs : list string) : bool :=
  existsb (endswith s) sufs.

(** [sub in s] for a string [sub]. *)
Fixpoint contains (s sub : string) : bool :=
  String.prefix sub s ||
  match s with
  | EmptyString => false
  | String _ r => contains r sub
  end.

(** [s.partition(c)] when [c in s]: the text before the first [c] and the
    text after it. *)
Fixpoint partition (c : ascii) (s : string) : option (string * string) :=
  match s with
  | EmptyString => None
  | String a r =>
      if char_eqb a c then Some (EmptyString, r)
      else match partition c r with
           | Some (x, y) => Some (String a x, y)
           | None => None
           end
  end.

(** [s.split(c)[0]] *)
Fixpoint split_first (c : ascii) (s : string) : string :=
  match s with
  | EmptyString => EmptyString
  | String a r => if char_eqb a c then EmptyString else String a (split_first c r)
  end.

(** [s.split(c)[-1]] *)
Fixpoint split_last (c : ascii) (s : string) : string :=
  match s with
  | EmptyString => EmptyString
  | String a r =>
      if has c r then split_last c r
      else if char_eqb a c then r else s
  end.

(** [s.rstrip(c)] for a single character [c]. *)
Fixpoint rstrip (c : ascii) (s : string) : string :=
  match s with
  | EmptyString => EmptyString
  | String a r =>
      let r' := rstrip c r in
      if String.eqb r' EmptyString && char_eqb a c then EmptyString
      else String a r'
  end.

(** [s.lstrip(chars)] for the set of characters [p]. *)
Fixpoint lstrip_by (p : ascii -> bool) (s : string) : string :=
  match s with
  | EmptyString => EmptyString
  | String a r => if p a then lstrip_by p r else s
  end.

(** [s.rstrip(chars)] for the set of characters [p]. *)
Fixpoint rstrip_by (p : ascii -> bool) (s : string) : string :=
  match s with
  | EmptyString => EmptyString
  | String a r =>
      let r' := rstrip_by p r in
      if String.eqb r' EmptyString && p a then EmptyString
      else String a r'
  end.

(** Deleting every occurrence of the characters [p] ([s.replace(c, "")]). *)
Fixpoint remove_by (p : ascii -> bool) (s : string) : string :=
  match s with
  | EmptyString => EmptyString
  | String a r => if p a then remove_by p r else String a (remove_by p r)
  end.

(** [str.isspace] on Latin-1 code points. *)
Definition isspace (a : ascii) : bool :=
  let n := ord a in
  ((9 <=? n) && (n <=? 13))%nat || ((28 <=? n) && (n <=? 32))%nat
  || (n =? 133)%nat || (n =? 160)%nat.

(** [s.strip()] *)
Definition strip (s : string) : string := rstrip_by isspace (lstrip_by isspace s).

(** [str.lower] on Latin-1 code points: A-Z and the letters U+00C0-U+00DE
    except U+00D7 move up by 32; every other Latin-1 character is unchanged. *)
Definition lower_char (a : ascii) : ascii :=
  let n := ord a in
  if ((65 <=? n) && (n <=? 90))%nat
     || ((192 <=? n) && (n <=? 222) && negb (n =? 215))%nat
  then chr (n + 32) else a.

Fixpoint lower (s : string) : string :=
  match s with
  | EmptyString => EmptyString
  | String a r => String (lower_char a) (lower r)
  end.

Definition is_ascii_alpha (a : ascii) : bool :=
  let n := ord a in ((65 <=? n) && (n <=? 90))%nat || ((97 <=? n) && (n <=? 122))%nat.

Definition is_ascii_digit (a : ascii) : bool :=
  let n := ord a in ((48 <=? n) && (n <=? 57))%nat.

(** [sep.join(xs)] *)
Fixpoint join (sep : string) (xs : list string) : string :=
  match xs with
  | [] => EmptyString
  | [x] => x
  | x :: xs' => (x ++ sep ++ join sep xs')%string
  end.

End Py.

(* ------------------------------------------------------------------ *)
(** ** Data: parsed HTML, HTTP responses, PDF readers, document records *)

(** A BeautifulSoup tree. Every [Tag] is an object with an identity, its
    [id]; [find], [find_all] and [decompose] work on these objects. The
    [BeautifulSoup] object itself is the tag named ["[document]"]. *)
#[local] Set Warnings "-register-all".
Inductive node : Type :=
| Elem (id : nat) (name : string) (attrs : list (string * string)) (kids : list node)
| Text (s : string).

Record response := mkResponse {
  status_code : Z;
  resp_headers : list (string * string);
  resp_content : string
}.

(** What [pypdf.PdfReader] yields: the metadata title (if any) and the text
    of each page ([page.extract_text()]). *)
Record pdf_doc := mkPdf {
  pdf_meta_title : option string;
  pdf_pages : list string
}.

(** [{"url": ..., "title": ..., "content": ...}] *)
Record doc := mkDoc { doc_url : string; doc_title : string; doc_content : string }.

(** The library calls of the scraper. *)
Class PyLib := {
  (** [urllib.parse._check_bracketed_netloc] accepts a netloc holding both
      brackets (it validates the host with the [ipaddress] module). *)
  check_bracketed_netloc : string -> bool;
  (** [urllib.parse.urljoin(base, href)] *)
  urljoin : string -> string -> res string;
  (** [requests.get(url, timeout=10)] *)
  requests_get : string -> res response;
  (** [BeautifulSoup(content, "html.parser")] *)
  html_parse : string -> res node;
  (** [md(str(tag), heading_style="ATX")] *)
  markdownify : node -> string;
  (** [pypdf.PdfReader(BytesIO(content))] with its pages' text and metadata *)
  pdf_read : string -> res pdf_doc
}.

(* ------------------------------------------------------------------ *)
(** ** [urllib.parse] (CPython 3.12): [urlsplit] and [urlparse] *)

Module UrlParse.
Import Py.

Record split_result := mkSplit {
  sr_scheme : string; sr_netloc : string; sr_path : string;
  sr_query : string; sr_fragment : string }.

Record parse_result := mkParse {
  scheme : string; netloc : string; path : string; params : string;
  query : string; fragment : string }.

(** [_WHATWG_C0_CONTROL_OR_SPACE]: U+0000-U+0020 *)
Definition c0_control_or_space (a : ascii) : bool := (ord a <=? 32)%nat.

(** [_UNSAFE_URL_BYTES_TO_REMOVE = ['\t', '\r', '\n']] *)
Definition unsafe_url_byte (a : ascii) : bool :=
  (ord a =? 9)%nat || (ord a =? 13)%nat || (ord a =? 10)%nat.

(** [scheme_chars]: letters, digits and "+-." *)
Definition scheme_char (a : ascii) : bool :=
  is_ascii_alpha a || is_ascii_digit a
  || char_eqb a "+"%char || char_eqb a "-"%char || char_eqb a "."%char.

Definition uses_params : list string :=
  [""; "ftp"; "hdl"; "prospero"; "http"; "imap"; "https"; "shttp"; "rtsp";
   "rtsps"; "rtspu"; "sip"; "sips"; "mms"; "sftp"; "tel"]%string.

Definition netloc_delim (a : ascii) : bool :=
  char_eqb a "/"%char || char_eqb a "?"%char || char_eqb a "#"%char.

(** [_splitnetloc(url, 2)] applied to [url[2:]]: the netloc runs up to the
    first of "/?#". *)
Fixpoint splitnetloc (s : string) : string * string :=
  match s with
  | EmptyString => (EmptyString, EmptyString)
  | String a r =>
      if netloc_delim a then (EmptyString, s)
      else let '(n, rest) := splitnetloc r in (String a n, rest)
  end.

(** The scheme: [url[:i].lower()] when [i = url.find(':') > 0], [url[0]] is
    an ASCII letter and every character of [url[:i]] is a scheme character. *)
Definition split_scheme (url : string) : string * string :=
  match partition ":"%char url with
  | Some (String a _ as pre, post) =>
      if is_ascii_alpha a && forallb scheme_char (list_ascii_of_string pre)
      then (lower pre, post) else (EmptyString, url)
  | _ => (EmptyString, url)
  end.

(** The bracket checks of [urlsplit]: unbalanced brackets raise, a bracketed
    netloc must pass [_check_bracketed_netloc]. ([_checknetloc] never raises
    on Latin-1 text: no Latin-1 character has an NFKC form holding one of
    "/?#@:".) *)
Definition netloc_ok `{PyLib} (netloc : string) : bool :=
  let o := has "["%char netloc in
  let c := has "]"%char netloc in
  if (o && negb c) || (c && negb o) then false
  else if o && c then check_bracketed_netloc netloc
  else true.

(** The scheme and netloc of [urlsplit], with the rest of the URL. *)
Definition split_netloc (url : string) : string * string * string :=
  let url := remove_by unsafe_url_byte (lstrip_by c0_control_or_space url) in
  let '(sch, url) := split_scheme url in
  (* [if url[:2] == '//'] *)
  match url with
  | String a (String b r) =>
      if char_eqb a "/"%char && char_eqb b "/"%char
      then let '(n, rest) := splitnetloc r in (sch, n, rest)
      else (sch, EmptyString, url)
  | _ => (sch, EmptyString, url)
  end.

Definition urlsplit `{PyLib} (url : string) : res split_result :=
  let '(sch, net, url) := split_netloc url in
  if negb (netloc_ok net) then Err ValueError else
  let '(url, frag) :=
    match partition "#"%char url with Some p => p | None => (url, EmptyString) end in
  let '(url, q) :=
    match partition "?"%char url with Some p => p | None => (url, EmptyString) end in
  Ok (mkSplit sch net url q frag).

(** [url.rfind('/')] splits [url] into the text before its last '/' and the
    text from it on. *)
Fixpoint split_last_slash (s : string) : option (string * string) :=
  match s with
  | EmptyString => None
  | String a r =>
      match split_last_slash r with
      | Some (x, y) => Some (String a x, y)
      | None => if char_eqb a "/"%char then Some (EmptyString, s) else None
      end
  end.

(** [_splitparams(url)] *)
Definition splitparams (url : string) : string * string :=
  match split_last_slash url with
  | Some (x, y) =>
      match partition ";"%char y with
      | Some (y1, y2) => ((x ++ y1)%string, y2)
      | None => (url, EmptyString)
      end
  | None =>
      match partition ";"%char url with
      | Some p => p
      | None => (url, EmptyString)
      end
  end.

Definition urlparse `{PyLib} (url : string) : res parse_result :=
  let? sr := urlsplit url in
  let '(p, prm) :=
    if bool_decide (sr_scheme sr ∈ uses_params) && has ";"%char (sr_path sr)
    then splitparams (sr_path sr) else (sr_path sr, EmptyString) in
  Ok (mkParse (sr_scheme sr) (sr_netloc sr) p prm (sr_query sr) (sr_fragment sr)).

End UrlParse.

(* ------------------------------------------------------------------ *)
(** ** The scraper object, its log and the state/exception monad *)

(** Attributes fixed by [__init__]. *)
Record config := mkConfig {
  base_url : string;
  base_path : string;
  max_pages : Z;
  domain : string
}.

(** What the scraper leaves observable: its log lines, the HTTP requests it
    makes and its [time.sleep] calls, in order. *)
Inductive event : Type :=
| LogInfo (n total : Z) (url : string)   (* info: "Scraping ({n}/{total}): {url}" *)
| LogWarnPdf (url : string) (e : exn)    (* warning: "Error parsing PDF {url}: {e}" *)
| LogWarnScrape (url : string) (e : exn) (* warning: "Error scraping {url}: {e}" *)
| HttpGet (url : string)                 (* requests.get(url, timeout=10) *)
| Sleep (secs : Q).                      (* time.sleep(secs) *)

(** The mutable attributes, the locals [urls_to_visit] and [total_pages] of
    [scrape], and the events so far. *)
Record state := mkState {
  visited_urls : gset string;
  queued_urls : gset string;
  documents : list doc;
  urls_to_visit : list string;
  total_pages : Z;
  events : list event
}.

Definition set_visited (v : gset string) (s : state) : state :=
  mkState v (queued_urls s) (documents s) (urls_to_visit s) (total_pages s) (events s).
Definition set_queued (q : gset string) (s : state) : state :=
  mkState (visited_urls s) q (documents s) (urls_to_visit s) (total_pages s) (events s).
Definition set_documents (d : list doc) (s : state) : state :=
  mkState (visited_urls s) (queued_urls s) d (urls_to_visit s) (total_pages s) (events s).
Definition set_urls_to_visit (l : list string) (s : state) : state :=
  mkState (visited_urls s) (queued_urls s) (documents s) l (total_pages s) (events s).
Definition set_total_pages (t : Z) (s : state) : state :=
  mkState (visited_urls s) (queued_urls s) (documents s) (urls_to_visit s) t (events s).
Definition set_events (e : list event) (s : state) : state :=
  mkState (visited_urls s) (queued_urls s) (documents s) (urls_to_visit s) (total_pages s) e.

Definition PyM (A : Type) : Type := state -> res A * state.

Definition ret {A} (a : A) : PyM A := fun s => (Ok a, s).
Definition bind {A B} (m : PyM A) (k : A -> PyM B) : PyM B :=
  fun s => match m s with
           | (Ok a, s') => k a s'
           | (Err e, s') => (Err e, s')
           end.
Definition lift {A} (r : res A) : PyM A := fun s => (r, s).
Definition gets {A} (f : state -> A) : PyM A := fun s => (Ok (f s), s).
Definition modify (f : state -> state) : PyM unit := fun s => (Ok tt, f s).
(** [try: m except Exception as e: h(e)] *)
Definition try_except {A} (m : PyM A) (h : exn -> PyM A) : PyM A :=
  fun s => match m s with
           | (Err e, s') => h e s'
           | r => r
           end.
Definition emit (ev : event) : PyM unit := modify (fun s => set_events (events s ++ [ev]) s).

Notation "'let!' x := m 'in' k" := (bind m (fun x => k))
  (at level 200, x name, m at level 100, k at level 200).

(* ------------------------------------------------------------------ *)
(** ** [__init__], [is_valid_url], [normalize_url] *)

Section Scraper.
Context `{PyLib}.
Import Py UrlParse.

Definition init (base_url0 : string) (max_pages0 : Z) : res (config * state) :=
  let? p1 := urlparse base_url0 in
  let? p2 := urlparse base_url0 in
  Ok (mkConfig (rstrip "/"%char base_url0) (rstrip "/"%char (path p1)) max_pages0 (netloc p2),
      mkState ∅ ∅ [] [] 0 []).

Definition excluded_extensions : list string :=
  [".zip"; ".tar.gz"; ".jpg"; ".png"; ".gif"; ".svg"; ".ico"]%string.

Definition is_valid_url (cfg : config) (visited queued : gset string) (url : string)
  : res bool :=
  let? parsed := urlparse url in
  if negb (String.eqb (netloc parsed) (domain cfg)) then Ok false else
  let url_path := rstrip "/"%char (path parsed) in
  if negb (startswith url_path (base_path cfg)) then Ok false else
  if bool_decide (url ∈ visited) || bool_decide (url ∈ queued) then Ok false else
  if endswith_any url excluded_extensions then Ok false else
  Ok true.

Definition normalize_url (url : string) : res string :=
  let url := split_first "#"%char url in
  let? parsed := urlparse url in
  if negb (String.eqb (path parsed) "/") then Ok (rstrip "/"%char url) else Ok url.

End Scraper.

(* ------------------------------------------------------------------ *)
(** ** BeautifulSoup: [find], [find_all], [decompose], [get_text] *)

Module Soup.
Import Py.

Definition node_id (t : node) : option nat :=
  match t with Elem i _ _ _ => Some i | Text _ => None end.

(** The descendants of a tag in document order (pre-order), itself excluded:
    what [find] and [find_all] search. *)
Fixpoint descendants (t : node) : list node :=
  match t with
  | Elem _ _ _ kids =>
      (fix go (ks : list node) : list node :=
         match ks with
         | [] => []
         | k :: ks' => k :: descendants k ++ go ks'
         end) kids
  | Text _ => []
  end.

(** [t.find_all(...)] and [t.find(...)] for a tag test [p]. *)
Definition find_all (p : node -> bool) (t : node) : list node :=
  List.filter p (descendants t).
Definition find (p : node -> bool) (t : node) : option node :=
  head (find_all p t).

Definition attr (a : string) (t : node) : option string :=
  match t with
  | Elem _ _ attrs _ => snd <$> List.find (fun kv => String.eqb (fst kv) a) attrs
  | Text _ => None
  end.

(** [name] *)
Definition is_tag (nm : string) (t : node) : bool :=
  match t with Elem _ n _ _ => String.eqb n nm | Text _ => false end.

(** [[name1, name2, ...]] *)
Definition is_tag_in (nms : list string) (t : node) : bool :=
  existsb (fun nm => is_tag nm t) nms.

(** The whitespace-separated words of a string ([class] is multi-valued). *)
Fixpoint words_aux (cur : string) (s : string) : list string :=
  match s with
  | EmptyString => if String.eqb cur EmptyString then [] else [cur]
  | String a r =>
      if isspace a
      then (if String.eqb cur EmptyString then [] else [cur]) ++ words_aux EmptyString r
      else words_aux (cur ++ String a EmptyString)%string r
  end.
Definition words (s : string) : list string := words_aux EmptyString s.

(** [name, class_=[c1, c2, ...]]: the tag has one of the classes. *)
Definition is_tag_with_class (nm : string) (classes : list string) (t : node) : bool :=
  is_tag nm t &&
  match attr "class" t with
  | Some v => existsb (fun c => bool_decide (c ∈ classes)) (words v)
  | None => false
  end.

(** [("a", href=True)] *)
Definition is_a_with_href (t : node) : bool :=
  is_tag "a" t && match attr "href" t with Some _ => true | None => false end.

(** [tag.decompose()] for the tag with identity [i]: it leaves the tree its
    parent belongs to. *)
Fixpoint decompose (i : nat) (t : node) : node :=
  match t with
  | Elem j n a kids =>
      Elem j n a
        ((fix go (ks : list node) : list node :=
            match ks with
            | [] => []
            | k :: ks' =>
                if bool_decide (node_id k = Some i) then go ks' else decompose i k :: go ks'
            end) kids)
  | Text s => Text s
  end.

(** [tag.get_text(strip=True)]: the stripped strings, the empty ones
    dropped, concatenated. *)
Definition get_text_strip (t : node) : string :=
  fold_right String.append EmptyString
    (List.filter (fun s => negb (String.eqb s EmptyString))
       (omap (fun n => match n with Text s => Some (strip s) | Elem _ _ _ _ => None end)
          (descendants t))).

End Soup.

(* ------------------------------------------------------------------ *)
(** ** [extract_content], [extract_pdf_content], [extract_links] *)

Section Extract.
Context `{PyLib}.
Import Py Soup.

Definition removed_tags : list string := ["script"; "style"; "nav"; "header"; "footer"]%string.

(** [main_content = soup.find("main") or soup.find("article")
    or soup.find("div", class_=[...]) or soup.find("body")] *)
Definition find_main_content (soup : node) : option node :=
  match find (is_tag "main") soup with
  | Some m => Some m
  | None =>
  match find (is_tag "article") soup with
  | Some m => Some m
  | None =>
  match find (is_tag_with_class "div" ["content"; "documentation"; "docs"]%string) soup with
  | Some m => Some m
  | None => find (is_tag "body") soup
  end end end.

(** The decompositions of the loop
    [for element in main_content.find_all([...]): element.decompose()],
    applied to a tree. *)
Definition decompose_all (elements : list node) (t : node) : node :=
  fold_left (fun t e => match node_id e with Some i => decompose i t | None => t end)
    elements t.

(** [extract_content(soup, url)]: the document record, and [soup] as the
    method leaves it (the same object [extract_links] then reads). With no
    region found, [main_content] is [None] and [None.find_all] raises. *)
Definition extract_content (soup : node) (url : string) : res (node * doc) :=
  match find_main_content soup with
  | None => Err AttributeError
  | Some main_content =>
      let elements := find_all (is_tag_in removed_tags) main_content in
      let soup' := decompose_all elements soup in
      let main_content' := decompose_all elements main_content in
      let title_text :=
        match find (is_tag "h1") soup' with
        | Some title => get_text_strip title
        | None => url
        end in
      let content_md := markdownify main_content' in
      Ok (soup', mkDoc url title_text content_md)
  end.

Definition newline : string := String "010"%char EmptyString.

(** [extract_pdf_content(pdf_bytes, url)] *)
Definition extract_pdf_content (pdf_bytes url : string) : PyM doc :=
  match pdf_read pdf_bytes with
  | Ok reader =>
      let text_content :=
        List.filter (fun t => negb (String.eqb (strip t) EmptyString)) (pdf_pages reader) in
      let content := join (newline ++ newline)%string text_content in
      let default_title := split_last "/"%char url in
      (* [if pdf_reader.metadata and pdf_reader.metadata.title] *)
      let title :=
        match pdf_meta_title reader with
        | Some t => if negb (String.eqb t EmptyString) then Some t else None
        | None => None
        end in
      let title :=
        match title with
        | Some t => t
        | None =>
            if negb (String.eqb content EmptyString) then
              let first_line := strip (split_first "010"%char content) in
              if negb (String.eqb first_line EmptyString)
                 && (String.length first_line <? 200)%nat
              then first_line else default_title
            else default_title
        end in
      ret (mkDoc url title content)
  | Err e =>
      let! _ := emit (LogWarnPdf url e) in
      ret (mkDoc url (split_last "/"%char url) EmptyString)
  end.

(** The [href] of every [a] tag found by [soup.find_all("a", href=True)]. *)
Definition a_hrefs (soup : node) : list string :=
  omap (attr "href") (find_all is_a_with_href soup).

(** The loop of [extract_links] over the hrefs, [links] collected so far. *)
Fixpoint extract_links_loop (cfg : config) (current_url : string) (hrefs : list string)
    (links : list string) : PyM (list string) :=
  match hrefs with
  | [] => ret links
  | href :: hrefs' =>
      let! absolute_url := lift (urljoin current_url href) in
      let! absolute_url := lift (normalize_url absolute_url) in
      let! ok := (fun s => (is_valid_url cfg (visited_urls s) (queued_urls s) absolute_url, s)) in
      if ok then
        let! _ := modify (fun s => set_queued ({[absolute_url]} ∪ queued_urls s) s) in
        extract_links_loop cfg current_url hrefs' (links ++ [absolute_url])
      else extract_links_loop cfg current_url hrefs' links
  end.

Definition extract_links (cfg : config) (soup : node) (current_url : string)
  : PyM (list string) :=
  extract_links_loop cfg current_url (a_hrefs soup) [].

End Extract.

(* ------------------------------------------------------------------ *)
(** ** [scrape] *)

Section Scrape.
Context `{PyLib}.
Import Py.

(** [response.headers.get("content-type", "")]; requests' headers are a
    case-insensitive dict. *)
Definition header_get (hdrs : list (string * string)) (name : string) : string :=
  match List.find (fun kv => String.eqb (lower (fst kv)) (lower name)) hdrs with
  | Some kv => snd kv
  | None => EmptyString
  end.

(** [response.raise_for_status()]: raises for the statuses 400 to 599. *)
Definition raise_for_status (r : response) : res unit :=
  if (400 <=? status_code r) && (status_code r <? 600) then Err HTTPError else Ok tt.

Definition append_document (d : doc) : PyM unit :=
  modify (fun s => set_documents (documents s ++ [d]) s).

(** The [try] block of the loop body, for [url]. *)
Definition scrape_url (cfg : config) (url : string) : PyM unit :=
  let! _ := emit (HttpGet url) in
  let! response := lift (requests_get url) in
  let! _ := lift (raise_for_status response) in
  let! _ := modify (fun s => set_visited ({[url]} ∪ visited_urls s) s) in
  let content_type := lower (header_get (resp_headers response) "content-type") in
  let is_pdf := endswith url ".pdf" || contains content_type "application/pdf" in
  let! _ :=
    if is_pdf then
      let! d := extract_pdf_content (resp_content response) url in
      if negb (String.eqb (strip (doc_content d)) EmptyString) then append_document d
      else ret tt
    else
      let! soup := lift (html_parse (resp_content response)) in
      let! soup_doc := lift (extract_content soup url) in
      let '(soup, d) := soup_doc in
      let! _ :=
        if negb (String.eqb (strip (doc_content d)) EmptyString) then append_document d
        else ret tt in
      let! new_links := extract_links cfg soup url in
      modify (fun s => set_urls_to_visit (urls_to_visit s ++ new_links) s) in
  let! _ := modify (fun s =>
              set_total_pages (Z.min (max_pages cfg) (Z.of_nat (length (urls_to_visit s)))) s) in
  emit (Sleep (51 # 100)).

(** [urls_to_visit.pop(0)] *)
Definition pop0 : PyM string :=
  fun s => match urls_to_visit s with
           | [] => (Err IndexError, s)
           | u :: rest => (Ok u, set_urls_to_visit rest s)
           end.

(** One iteration of the [while] body. *)
Definition scrape_iter (cfg : config) : PyM unit :=
  let! url := pop0 in
  let! _ := (fun s => emit (LogInfo (Z.of_nat (size (visited_urls s)) + 1) (total_pages s) url) s) in
  let! seen := gets (fun s => bool_decide (url ∈ visited_urls s)) in
  if seen then ret tt
  else try_except (scrape_url cfg url) (fun e => emit (LogWarnScrape url e)).

(** [while urls_to_visit and len(self.visited_urls) < self.max_pages] *)
Definition loop_guard (cfg : config) (s : state) : bool :=
  negb (bool_decide (urls_to_visit s = [])) && (Z.of_nat (size (visited_urls s)) <? max_pages cfg).

(** The loop, run for at most [fuel] iterations ([None]: out of fuel). *)
Fixpoint scrape_loop (cfg : config) (fuel : nat) (s : state) : option state :=
  match fuel with
  | O => None
  | S fuel' => if loop_guard cfg s then scrape_loop cfg fuel' (snd (scrape_iter cfg s)) else Some s
  end.

(** The statements of [scrape] before the loop. *)
Definition scrape_start (cfg : config) : PyM unit :=
  let! normalized_base := lift (normalize_url (base_url cfg)) in
  let! _ := modify (set_urls_to_visit [normalized_base]) in
  let! _ := modify (fun s => set_queued ({[normalized_base]} ∪ queued_urls s) s) in
  modify (set_total_pages (Z.min (max_pages cfg) 1)).

(** [scrape()] with a bound on the loop's iterations. *)
Definition scrape (cfg : config) (fuel : nat) (s : state) : option (res (list doc) * state) :=
  match scrape_start cfg s with
  | (Err e, s') => Some (Err e, s')
  | (Ok _, s') =>
      match scrape_loop cfg fuel s' with
      | Some s'' => Some (Ok (documents s''), s'')
      | None => None
      end
  end.

(** [DocumentationScraper(base_url, max_pages).scrape()] *)
Definition crawl (base_url0 : string) (max_pages0 : Z) (fuel : nat)
  : option (res (list doc) * state) :=
  match init base_url0 max_pages0 with
  | Err e => Some (Err e, mkState ∅ ∅ [] [] 0 [])
  | Ok (cfg, s0) => scrape cfg fuel s0
  end.

(** The states of a crawl: the state [scrape] enters its loop with, and
    every state an iteration of the loop leads to. *)
Inductive reachable (base_url0 : string) (max_pages0 : Z) : config -> state -> Prop :=
| reach_start cfg s0 s1 :
    init base_url0 max_pages0 = Ok (cfg, s0) ->
    scrape_start cfg s0 = (Ok tt, s1) ->
    reachable base_url0 max_pages0 cfg s1
| reach_step cfg s :
    reachable base_url0 max_pages0 cfg s ->
    loop_guard cfg s = true ->
    reachable base_url0 max_pages0 cfg (snd (scrape_iter cfg s)).

End Scrape.

(* ------------------------------------------------------------------ *)
(** ** Auxiliary notions used in the statements *)

(** [k] slashes. *)
Fixpoint slashes (k : nat) : string :=
  match k with O => EmptyString | S k' => String "/" (slashes k') end.

(** The scope test of a URL on its own, in the terms of [is_valid_url]. *)
Definition in_scope `{PyLib} (cfg : config) (url : string) : Prop :=
  exists p, UrlParse.urlparse url = Ok p /\
    UrlParse.netloc p = domain cfg /\
    Py.startswith (Py.rstrip "/"%char (UrlParse.path p)) (base_path cfg) = true /\
    Py.endswith_any url excluded_extensions = false.

Definition http_gets (evs : list event) : list string :=
  omap (fun ev => match ev with HttpGet u => Some u | _ => None end) evs.

Definition is_sleep (ev : event) : bool :=
  match ev with Sleep _ => true | _ => false end.

Definition is_get (ev : event) : bool :=
  match ev with HttpGet _ => true | _ => false end.

Definition is_scrape_warning (ev : event) : bool :=
  match ev with LogWarnScrape _ _ => true | _ => false end.

(** A warning of the PDF extractor. *)
Definition pdf_warning (ev : event) : Prop := exists u e, ev = LogWarnPdf u e.

(** The bookkeeping of the crawl loop: the URLs requested so far are
    distinct and all queued; the pending URLs are distinct, queued and not
    requested yet; every visited URL has been requested; and [visited] holds
    at most [max(0, max_pages)] URLs. *)
Definition crawl_inv (cfg : config) (s : state) : Prop :=
  NoDup (http_gets (events s)) /\
  NoDup (urls_to_visit s) /\
  (forall x, x ∈ urls_to_visit s -> x ∈ queued_urls s /\ x ∉ http_gets (events s)) /\
  (forall x, x ∈ http_gets (events s) -> x ∈ queued_urls s) /\
  (forall x, x ∈ visited_urls s -> x ∈ http_gets (events s)) /\
  Z.of_nat (size (visited_urls s)) <= Z.max 0 (max_pages cfg).

(** The ids of a tree's elements, the root's included, in document order. *)
Definition all_ids (t : node) : list nat := omap Soup.node_id (t :: Soup.descendants t).

(** Whether a node is an element whose id is in [ids]. *)
Definition id_in (ids : list nat) (t : node) : bool :=
  match Soup.node_id t with Some i => bool_decide (i ∈ ids) | None => false end.

(** [t] with every element whose id is in [ids] cut off, at any depth below
    the root. *)
Fixpoint prune_ids (ids : list nat) (t : node) : node :=
  match t with
  | Elem j n a kids =>
      Elem j n a
        ((fix go (ks : list node) : list node :=
            match ks with
            | [] => []
            | k :: ks' => if id_in ids k then go ks' else prune_ids ids k :: go ks'
            end) kids)
  | Text s => Text s
  end.

(** [t] without its [script], [style], [nav], [header] and [footer]
    elements, at any depth below the root. *)
Fixpoint strip_removed (t : node) : node :=
  match t with
  | Elem j n a kids =>
      Elem j n a
        ((fix go (ks : list node) : list node :=
            match ks with
            | [] => []
            | k :: ks' => if Soup.is_tag_in removed_tags k then go ks' else strip_removed k :: go ks'
            end) kids)
  | Text s => Text s
  end.

(** [t] with the element of id [r] below its root replaced by [u]. *)
Fixpoint replace_node (r : nat) (u : node) (t : node) : node :=
  match t with
  | Elem j n a kids =>
      Elem j n a (map (fun k => if bool_decide (Soup.node_id k = Some r) then u else replace_node r u k) kids)
  | Text s => Text s
  end.

(** What [html.parser] builds from the fragment [<p>hi</p>]: no [<body>]
    is added. *)
Definition fragment_soup : node :=
  Elem 0 "[document]" [] [Elem 1 "p" [] [Text "hi"]].

(* ------------------------------------------------------------------ *)
(** ** Concrete library behaviours for the examples *)

(** A site that is unreachable: every request fails. [urljoin] keeps
    absolute hrefs as they are. *)
Definition offline_lib : PyLib := {|
  check_bracketed_netloc := fun _ => true;
  urljoin := fun _ href => Ok href;
  requests_get := fun _ => Err RequestException;
  html_parse := fun _ => Err AttributeError;
  markdownify := fun _ => EmptyString;
  pdf_read := fun _ => Err PdfError |}.

(** A server that answers every request with [304 Not Modified] and an empty
    body, which [html.parser] turns into an empty document. *)
Definition not_modified_lib : PyLib := {|
  check_bracketed_netloc := fun _ => true;
  urljoin := fun _ href => Ok href;
  requests_get := fun _ => Ok (mkResponse 304 [] EmptyString);
  html_parse := fun _ => Ok (Elem 0 "[document]" [] []);
  markdownify := fun _ => EmptyString;
  pdf_read := fun _ => Err PdfError |}.

(** The library [L] with the status of every response replaced by [200]:
    headers and body are kept. *)
Definition status_200 (L : PyLib) : PyLib := {|
  check_bracketed_netloc := @check_bracketed_netloc L;
  urljoin := @urljoin L;
  requests_get := fun u =>
    match @requests_get L u with
    | Ok r => Ok (mkResponse 200 (resp_headers r) (resp_content r))
    | Err e => Err e
    end;
  html_parse := @html_parse L;
  markdownify := @markdownify L;
  pdf_read := @pdf_read L |}.

(** A server that answers every request with [503 Service Unavailable]. *)
Definition unavailable_lib : PyLib := {|
  check_bracketed_netloc := fun _ => true;
  urljoin := fun _ href => Ok href;
  requests_get := fun _ => Ok (mkResponse 503 [] EmptyString);
  html_parse := fun _ => Ok (Elem 0 "[document]" [] []);
  markdownify := fun _ => EmptyString;
  pdf_read := fun _ => Err PdfError |}.

(** A site whose every page links to a page below [/docs], to a page of
    another host, to an image below [/docs] and to a page outside [/docs]. *)
Definition links_lib : PyLib := {|
  check_bracketed_netloc := fun _ => true;
  urljoin := fun _ href => Ok href;
  requests_get := fun _ => Ok (mkResponse 200 [] "page");
  html_parse := fun _ =>
    Ok (Elem 0 "[document]" []
          [Elem 1 "body" []
             [Elem 2 "a" [("href", "https://a.com/docs/next")] [Text "Next"];
              Elem 3 "a" [("href", "https://b.com/docs/x")] [Text "Elsewhere"];
              Elem 4 "a" [("href", "https://a.com/docs/logo.png")] [Text "Logo"];
              Elem 5 "a" [("href", "https://a.com/blog")] [Text "Blog"]]]);
  markdownify := fun _ => "page";
  pdf_read := fun _ => Err PdfError |}.

(** [DocumentationScraper("https://a.com/docs", max_pages=2)]: its
    configuration, its initial state, and the state [scrape] enters its loop
    with on the unreachable site. *)
Definition docs_cfg : config := mkConfig "https://a.com/docs" "/docs" 2 "a.com".
Definition empty_state : state := mkState ∅ ∅ [] [] 0 [].
Definition offline_start : state := snd (@scrape_start offline_lib docs_cfg empty_state).

(** A page whose region is its [<main>]; its [<header>] lies outside the
    region, its [<nav>] and [<script>] inside. *)
Definition region_page : node :=
  Elem 0 "[document]" []
    [Elem 1 "body" []
      [Elem 2 "header" [] [Elem 3 "a" [("href", "/docs/home")] [Text "Home"]];
       Elem 4 "main" []
         [Elem 5 "nav" [] [Elem 6 "a" [("href", "/docs/toc")] [Text "Contents"]];
          Elem 7 "p" [] [Elem 8 "a" [("href", "/docs/next")] [Text "Next"]];
          Elem 9 "script" [] [Text "track()"]]]].

(* ------------------------------------------------------------------ *)
(** ** [doc_rag/embedder.py] ([DocumentEmbedder]): chunking and storing *)

Module Embed.
Import Py.

(** Python's normalisation of a slice bound [i] for a sequence of length
    [n]: a negative bound counts from the end; the result is clamped to
    [0..n]. *)
Definition slice_bound (n : nat) (i : Z) : nat :=
  Z.to_nat (if i <? 0 then Z.max 0 (i + Z.of_nat n) else Z.min i (Z.of_nat n)).

(** [l[i:j]] *)
Definition py_slice {A} (l : list A) (i j : Z) : list A :=
  let a := slice_bound (length l) i in
  let b := slice_bound (length l) j in
  take (b - a) (drop a l).

(** The values [i, i + step, ...] of a [range] with a positive [step], below
    [stop]; [fuel] bounds their number. *)
Fixpoint range_up (fuel : nat) (i stop step : Z) : list Z :=
  match fuel with
  | O => []
  | S fuel' => if i <? stop then i :: range_up fuel' (i + step) stop step else []
  end.

(** The same for a negative [step], above [stop]. *)
Fixpoint range_down (fuel : nat) (i stop step : Z) : list Z :=
  match fuel with
  | O => []
  | S fuel' => if stop <? i then i :: range_down fuel' (i + step) stop step else []
  end.

(** [range(start, stop, step)]: a zero step raises [ValueError]; the
    distance between [start] and [stop] bounds the number of values. *)
Definition py_range (start stop step : Z) : res (list Z) :=
  if step =? 0 then Err ValueError
  else if 0 <? step then Ok (range_up (Z.to_nat (stop - start)) start stop step)
  else Ok (range_down (Z.to_nat (start - stop)) start stop step).

(** [text.split()]: the maximal runs of non-whitespace characters. *)
Definition split (text : string) : list string := Soup.words text.

Definition space : string := " ".

(** The loop of [chunk_text] over the starts [i] of [range]. *)
Fixpoint chunk_loop (words : list string) (chunk_size : Z) (starts : list Z)
    (chunks : list string) : list string :=
  match starts with
  | [] => chunks
  | i :: starts' =>
      let chunk := join space (py_slice words i (i + chunk_size)) in
      if negb (String.eqb chunk EmptyString)
      then chunk_loop words chunk_size starts' (chunks ++ [chunk])
      else chunk_loop words chunk_size starts' chunks
  end.

(** [DocumentEmbedder.chunk_text(text, chunk_size, overlap)] *)
Definition chunk_text (text : string) (chunk_size overlap : Z) : res (list string) :=
  let words := split text in
  let? starts := py_range 0 (Z.of_nat (length words)) (chunk_size - overlap) in
  Ok (chunk_loop words chunk_size starts []).

(** [{"url": ..., "title": ..., "chunk_index": ...}] *)
Record meta := mkMeta { meta_url : string; meta_title : string; meta_chunk_index : nat }.

(** [f"doc_{doc_idx}_chunk_{chunk_idx}"] *)
Definition chunk_id (doc_idx chunk_idx : nat) : string :=
  ("doc_" ++ pretty doc_idx ++ "_chunk_" ++ pretty chunk_idx)%string.

(** The inner loop [for chunk_idx, chunk in enumerate(chunks)] of document
    [doc_idx], from index [chunk_idx] on, appending to the three lists. *)
Fixpoint collect_doc (doc_idx : nat) (d : doc) (chunks : list string) (chunk_idx : nat)
    (all_chunks : list string) (all_metadatas : list meta) (all_ids : list string)
  : list string * list meta * list string :=
  match chunks with
  | [] => (all_chunks, all_metadatas, all_ids)
  | chunk :: chunks' =>
      collect_doc doc_idx d chunks' (S chunk_idx)
        (all_chunks ++ [chunk])
        (all_metadatas ++ [mkMeta (doc_url d) (doc_title d) chunk_idx])
        (all_ids ++ [chunk_id doc_idx chunk_idx])
  end.

(** The outer loop [for doc_idx, doc in enumerate(documents)], from index
    [doc_idx] on; [chunk_text(doc["content"])] uses the defaults 300 and 50. *)
Fixpoint collect_chunks (doc_idx : nat) (documents : list doc)
    (all_chunks : list string) (all_metadatas : list meta) (all_ids : list string)
  : res (list string * list meta * list string) :=
  match documents with
  | [] => Ok (all_chunks, all_metadatas, all_ids)
  | d :: documents' =>
      let? chunks := chunk_text (doc_content d) 300 50 in
      let '(c, m, i) := collect_doc doc_idx d chunks 0 all_chunks all_metadatas all_ids in
      collect_chunks (S doc_idx) documents' c m i
  end.

Definition batch_size : Z := 100.

Section EmbedDocuments.
(** The rows of the embeddings are of type [vec]; the Chroma collection's
    contents are of type [db]. *)
Context {vec db : Type}.

(** The arguments of one [self.collection.add(...)] call. *)
Record add_call := mkAdd {
  add_documents : list string;
  add_embeddings : list vec;
  add_metadatas : list meta;
  add_ids : list string
}.

(** [self.embedding_model.encode(all_chunks, ...)], which can raise; and
    [self.collection.add(...)] on the collection's contents, which can raise
    (chromadb refuses, for instance, embeddings of another dimension than
    the collection's) and leaves the contents it leaves. *)
Context (encode : list string -> res (list vec)) (add : add_call -> db -> res unit * db).

(** The batch loop [for i in range(0, len(all_chunks), batch_size)] over the
    starts [i] of [range]: the [collection.add] calls made, the one that
    raised included, the outcome and the collection's contents. *)
Fixpoint add_batches (all_chunks : list string) (embeddings : list vec)
    (all_metadatas : list meta) (all_ids : list string) (n : Z) (starts : list Z) (c : db)
  : list add_call * res unit * db :=
  match starts with
  | [] => ([], Ok tt, c)
  | i :: starts' =>
      let batch_end := Z.min (i + batch_size) n in
      let call := mkAdd (py_slice all_chunks i batch_end) (py_slice embeddings i batch_end)
                        (py_slice all_metadatas i batch_end) (py_slice all_ids i batch_end) in
      match add call c with
      | (Ok _, c') =>
          let '(calls, r, c'') :=
            add_batches all_chunks embeddings all_metadatas all_ids n starts' c' in
          (call :: calls, r, c'')
      | (Err e, c') => ([call], Err e, c')
      end
  end.

(** [embed_documents(documents)] on a collection holding [c]: the
    [collection.add] calls it makes, in order, the outcome ([Ok tt], or the
    exception of [encode] or of the [collection.add] call that raised) and
    the collection's contents afterwards. *)
Definition embed_documents (documents : list doc) (c : db) : list add_call * res unit * db :=
  match collect_chunks 0 documents [] [] [] with
  | Err e => ([], Err e, c)
  | Ok (all_chunks, all_metadatas, all_ids) =>
      match encode all_chunks with
      | Err e => ([], Err e, c)
      | Ok embeddings =>
          let n := Z.of_nat (length all_chunks) in
          match py_range 0 n batch_size with
          | Err e => ([], Err e, c)
          | Ok starts => add_batches all_chunks embeddings all_metadatas all_ids n starts c
          end
      end
  end.

End EmbedDocuments.

End Embed.

(* ------------------------------------------------------------------ *)
(** ** Auxiliary definitions: words, the entries [embed_documents]
    collects, and the bookkeeping of the crawl's documents and log *)

Module EmbedAux.
Import Embed.

(** A string with no whitespace character. *)
Fixpoint no_space (s : string) : bool :=
  match s with
  | EmptyString => true
  | String a r => negb (Py.isspace a) && no_space r
  end.

(** What [str.split()] can return as one of its words. *)
Definition word_ok (w : string) : Prop := w <> EmptyString /\ no_space w = true.

(** The chunks [embed_documents] makes of a document; [chunk_text] with its
    defaults 300 and 50 does not raise. *)
Definition doc_chunks (d : doc) : list string :=
  match chunk_text (doc_content d) 300 50 with Ok cs => cs | Err _ => [] end.

(** The (chunk, metadata, id) triples [embed_documents] collects for the
    documents numbered from [doc_idx] on, in order. *)
Fixpoint doc_entries (doc_idx : nat) (documents : list doc) : list (string * meta * string) :=
  match documents with
  | [] => []
  | d :: ds =>
      imap (fun j c => (c, mkMeta (doc_url d) (doc_title d) j, chunk_id doc_idx j)) (doc_chunks d)
      ++ doc_entries (S doc_idx) ds
  end.

(** The [collection.add] call of the batch that starts at [i], of the lists
    [C], [E], [M] and [I] of [n] chunks. *)
Definition batch_call {vec : Type} (C : list string) (E : list vec) (M : list meta)
    (I : list string) (n i : Z) : add_call :=
  let batch_end := Z.min (i + batch_size) n in
  mkAdd (py_slice C i batch_end) (py_slice E i batch_end) (py_slice M i batch_end)
        (py_slice I i batch_end).

(** The starts [0, 100, 200, ...] of the batches of [n] chunks. *)
Definition batch_starts (n : nat) : list Z :=
  map (fun k => 0 + Z.of_nat k * 100) (seq 0 ((n + 100 - 1) / 100)).

End EmbedAux.

(** The stored documents have distinct URLs, each of them visited, and
    none of them blank. *)
Definition docs_inv (s : state) : Prop :=
  NoDup (map doc_url (documents s)) /\
  forall d, d ∈ documents s -> doc_url d ∈ visited_urls s /\ Py.strip (doc_content d) <> EmptyString.

(** The progress total stays within [mp] (and is not negative once
    [mp >= 1]), and every progress line ["Scraping ({n}/{total}): {url}"]
    logged so far has [1 <= n <= mp] and [0 <= total <= mp]. *)
Definition log_bounds (mp : Z) (s : state) : Prop :=
  total_pages s <= mp /\ (1 <= mp -> 0 <= total_pages s) /\
  forall n tot u, LogInfo n tot u ∈ events s -> 1 <= n <= mp /\ 0 <= tot <= mp.

(** A site of one HTML page, ["hello"], with no links. *)
Definition one_page_lib : PyLib := {|
  check_bracketed_netloc := fun _ => true;
  urljoin := fun _ href => Ok href;
  requests_get := fun _ => Ok (mkResponse 200 [] "hello");
  html_parse := fun _ => Ok (Elem 0 "[document]" [] [Elem 1 "body" [] [Text "hello"]]);
  markdownify := fun _ => "hello";
  pdf_read := fun _ => Err PdfError |}.

(* ================================================================== *)
(** * Proofs *)

(* ------------------------------------------------------------------ *)
(** ** String lemmas *)

Module StrFacts.
Import Py.

Lemma str_app_cons a x y : (String a x ++ y)%string = String a (x ++ y)%string.
Proof. reflexivity. Qed.

Lemma str_app_nil x : (EmptyString ++ x)%string = x.
Proof. reflexivity. Qed.

Lemma char_eqb_true a b : char_eqb a b = true <-> a = b.
Proof. unfold char_eqb. apply bool_decide_eq_true. Qed.

Lemma char_eqb_refl a : char_eqb a a = true.
Proof. by apply char_eqb_true. Qed.

Lemma split_first_no_char c u : has c (split_first c u) = false.
Proof.
  induction u as [|a r IH]; simpl; [done|].
  destruct (char_eqb a c) eqn:E; simpl; [done|]. by rewrite E, IH.
Qed.

Lemma split_first_prefix c u :
  exists rest, u = (split_first c u ++ rest)%string /\
    (rest = EmptyString \/ exists r, rest = String c r).
Proof.
  induction u as [|a r IH]; simpl.
  - exists EmptyString. auto.
  - destruct (char_eqb a c) eqn:E.
    + apply char_eqb_true in E as ->. exists (String c r). eauto.
    + destruct IH as [rest [Hr Hrest]]. exists rest. split; [|done].
      rewrite str_app_cons. f_equal. exact Hr.
Qed.

Lemma split_first_id c u : has c u = false -> split_first c u = u.
Proof.
  induction u as [|a r IH]; simpl; [done|].
  intros Hh. apply orb_false_iff in Hh as [Ha Hr]. rewrite Ha. by rewrite IH.
Qed.

Lemma rstrip_has c d u : has c u = false -> has c (rstrip d u) = false.
Proof.
  induction u as [|a r IH]; simpl; [done|].
  intros Hh. apply orb_false_iff in Hh as [Ha Hr].
  destruct (String.eqb (rstrip d r) EmptyString && char_eqb a d); simpl; [done|].
  by rewrite Ha, IH.
Qed.

Lemma rstrip_slashes u : exists k, u = (rstrip "/"%char u ++ slashes k)%string.
Proof.
  induction u as [|a r [k Hk]]; simpl.
  - by exists O.
  - destruct (String.eqb (rstrip "/" r) EmptyString && char_eqb a "/") eqn:E.
    + apply andb_true_iff in E as [E1 E2].
      apply String.eqb_eq in E1. apply char_eqb_true in E2 as ->.
      exists (S k). rewrite E1, str_app_nil in Hk. rewrite str_app_nil. simpl. by rewrite <- Hk.
    + exists k. rewrite str_app_cons. by rewrite <- Hk.
Qed.

Lemma rstrip_idem c u : rstrip c (rstrip c u) = rstrip c u.
Proof.
  induction u as [|a r IH]; simpl; [done|].
  destruct (String.eqb (rstrip c r) EmptyString && char_eqb a c) eqn:E; simpl; [done|].
  rewrite IH. by rewrite E.
Qed.

Lemma rstrip_not_endswith u : endswith (rstrip "/"%char u) "/" = false.
Proof.
  induction u as [|a r IH]; [done|]. cbn [rstrip].
  destruct (String.eqb (rstrip "/" r) EmptyString && char_eqb a "/") eqn:E; [done|].
  cbn [endswith]. rewrite IH, orb_false_r.
  apply not_true_iff_false. intros Heq. apply String.eqb_eq in Heq.
  injection Heq as -> Hr. rewrite Hr in E. simpl in E. by rewrite char_eqb_refl in E.
Qed.

End StrFacts.

(* ------------------------------------------------------------------ *)
(** ** [urlparse] fails on the netloc alone; trailing slashes keep it *)

Module UrlFacts.
Import Py UrlParse StrFacts.

Lemma slash_not_c0 : c0_control_or_space "/"%char = false.
Proof. reflexivity. Qed.

Lemma lstrip_app_slashes x k :
  lstrip_by c0_control_or_space (x ++ slashes k)%string
  = (lstrip_by c0_control_or_space x ++ slashes k)%string.
Proof.
  induction x as [|a r IH].
  - rewrite !str_app_nil. destruct k; reflexivity.
  - rewrite str_app_cons. simpl. destruct (c0_control_or_space a); [exact IH|].
    by rewrite str_app_cons.
Qed.

Lemma remove_app p x y :
  remove_by p (x ++ y)%string = (remove_by p x ++ remove_by p y)%string.
Proof.
  induction x as [|a r IH]; [done|].
  rewrite str_app_cons. simpl. destruct (p a); [exact IH|]. by rewrite IH, str_app_cons.
Qed.

Lemma remove_slashes k : remove_by unsafe_url_byte (slashes k) = slashes k.
Proof. induction k as [|k IH]; [done|]. simpl. by rewrite IH. Qed.

Lemma has_slashes c k : c <> "/"%char -> has c (slashes k) = false.
Proof.
  intros Hc. induction k as [|k IH]; [done|]. simpl. rewrite IH, orb_false_r.
  apply not_true_iff_false. intros E%char_eqb_true. congruence.
Qed.

Lemma partition_none c x : has c x = false -> partition c x = None.
Proof.
  induction x as [|a r IH]; [done|]. simpl.
  intros [Ha Hr]%orb_false_iff. rewrite Ha, IH; done.
Qed.

Lemma partition_app c x y :
  partition c (x ++ y)%string =
  match partition c x with
  | Some (a, b) => Some (a, (b ++ y)%string)
  | None => match partition c y with
            | Some (a, b) => Some ((x ++ a)%string, b)
            | None => None
            end
  end.
Proof.
  induction x as [|a r IH].
  - rewrite str_app_nil. simpl. by destruct (partition c y) as [[]|].
  - rewrite str_app_cons. simpl. destruct (char_eqb a c); [done|].
    rewrite IH. destruct (partition c r) as [[]|]; [done|].
    by destruct (partition c y) as [[]|].
Qed.

Lemma split_scheme_app x k :
  split_scheme (x ++ slashes k)%string =
  (fst (split_scheme x), (snd (split_scheme x) ++ slashes k)%string).
Proof.
  unfold split_scheme. rewrite partition_app.
  destruct (partition ":" x) as [[pre post]|] eqn:Hp.
  - destruct pre as [|a r]; [done|].
    by destruct (is_ascii_alpha a && forallb scheme_char (list_ascii_of_string (String a r))).
  - rewrite (partition_none ":" (slashes k)); [done|]. by apply has_slashes.
Qed.

Lemma splitnetloc_app_slashes r k :
  fst (splitnetloc (r ++ slashes k)%string) = fst (splitnetloc r).
Proof.
  induction r as [|a r IH].
  - rewrite str_app_nil. by destruct k.
  - rewrite str_app_cons. simpl. destruct (netloc_delim a); [done|].
    destruct (splitnetloc (r ++ slashes k)%string) as [n1 q1] eqn:E1.
    destruct (splitnetloc r) as [n2 q2] eqn:E2. simpl in *. by subst.
Qed.

Lemma splitnetloc_slashes k : fst (splitnetloc (slashes k)) = EmptyString.
Proof. by destruct k. Qed.

(** The netloc [split_netloc] finds. *)
Lemma split_netloc_netloc x :
  (split_netloc x).1.2 =
  match snd (split_scheme (remove_by unsafe_url_byte (lstrip_by c0_control_or_space x))) with
  | String a (String b r) =>
      if char_eqb a "/"%char && char_eqb b "/"%char then fst (splitnetloc r) else EmptyString
  | _ => EmptyString
  end.
Proof.
  unfold split_netloc.
  destruct (split_scheme _) as [sch w]. simpl.
  destruct w as [|a [|b r]]; try done.
  destruct (char_eqb a "/" && char_eqb b "/"); [|done].
  by destruct (splitnetloc r).
Qed.

Lemma split_netloc_app_slashes x k :
  (split_netloc (x ++ slashes k)%string).1.2 = (split_netloc x).1.2.
Proof.
  rewrite !split_netloc_netloc, lstrip_app_slashes, remove_app, remove_slashes,
    split_scheme_app. simpl.
  destruct (snd _) as [|a [|b r]].
  - rewrite str_app_nil. destruct k as [|[|k]]; try done. simpl.
    apply splitnetloc_slashes.
  - destruct k as [|k]; [done|]. simpl.
    destruct (char_eqb a "/" && char_eqb "/" "/"); [|done]. apply splitnetloc_slashes.
  - rewrite !str_app_cons.
    destruct (char_eqb a "/" && char_eqb b "/"); [|done].
    apply splitnetloc_app_slashes.
Qed.

Lemma urlparse_ok_iff `{PyLib} x :
  (exists p, urlparse x = Ok p) <-> netloc_ok ((split_netloc x).1.2) = true.
Proof.
  unfold urlparse, urlsplit.
  destruct (split_netloc x) as [[sch n] r]. simpl.
  destruct (netloc_ok n); simpl.
  - split; [done|]. intros _.
    destruct (partition "#" r) as [[u1 f]|]; simpl;
    [destruct (partition "?" u1) as [[u2 q]|]|destruct (partition "?" r) as [[u2 q]|]];
    simpl; repeat case_match; eexists; reflexivity.
  - split; [|done]. intros [p Hp]. discriminate.
Qed.

Lemma urlparse_rstrip_ok `{PyLib} x p :
  urlparse x = Ok p -> exists q, urlparse (rstrip "/"%char x) = Ok q.
Proof.
  intros Hx. apply urlparse_ok_iff.
  destruct (rstrip_slashes x) as [k Hk].
  rewrite <- (split_netloc_app_slashes _ k), <- Hk.
  apply urlparse_ok_iff. eauto.
Qed.

End UrlFacts.

(* ------------------------------------------------------------------ *)
(** ** [normalize_url] and [is_valid_url] *)

Section NormalizeValid.
Context `{PyLib}.
Import Py UrlParse StrFacts UrlFacts.

(** C7 (as amended): [normalize_url] keeps the text before the first '#';
    if that URL's path is exactly "/" it is returned as it is, otherwise
    every trailing '/' is removed; a URL [urlparse] rejects raises
    [ValueError]. *)
Theorem normalize_url_spec (u : string) :
  let c := split_first "#"%char u in
  has "#"%char c = false /\
  (exists rest, u = (c ++ rest)%string /\
     (rest = EmptyString \/ exists r, rest = String "#"%char r)) /\
  match urlparse c with
  | Err e => normalize_url u = Err e
  | Ok p =>
      if String.eqb (path p) "/" then normalize_url u = Ok c
      else exists v k, normalize_url u = Ok v /\ c = (v ++ slashes k)%string /\
                       endswith v "/" = false
  end.
Proof.
  simpl. split; [apply split_first_no_char|]. split; [apply split_first_prefix|].
  unfold normalize_url.
  destruct (urlparse (split_first "#" u)) as [p|e]; simpl; [|done].
  destruct (String.eqb (path p) "/"); simpl; [done|].
  destruct (rstrip_slashes (split_first "#" u)) as [k Hk].
  exists (rstrip "/" (split_first "#" u)), k.
  split; [done|]. split; [done|]. apply rstrip_not_endswith.
Qed.

(** C8: normalizing a normalized URL changes nothing; a URL whose
    normalization raises raises again. *)
Theorem normalize_url_idempotent (u : string) :
  res_bind (normalize_url u) normalize_url = normalize_url u.
Proof.
  unfold normalize_url at 1 3.
  destruct (urlparse (split_first "#" u)) as [p|e] eqn:Hp; simpl; [|done].
  pose proof (split_first_no_char "#" u) as Hno.
  destruct (String.eqb (path p) "/") eqn:Ep; simpl.
  - unfold normalize_url. rewrite split_first_id by done. rewrite Hp. simpl.
    by rewrite Ep.
  - unfold normalize_url. rewrite split_first_id by (by apply rstrip_has).
    destruct (urlparse_rstrip_ok _ _ Hp) as [q Hq]. rewrite Hq. simpl.
    destruct (String.eqb (path q) "/"); simpl; [done|]. by rewrite rstrip_idem.
Qed.

(** C4 (as amended): [is_valid_url] raises exactly when [urlparse] does;
    otherwise it accepts iff the netloc equals the domain, the path without
    trailing '/' starts with the base path, the URL is neither visited nor
    queued, and the URL string (query and all) does not end with an excluded
    extension. *)
Theorem is_valid_url_spec (cfg : config) (visited queued : gset string) (url : string) :
  match urlparse url with
  | Err e => is_valid_url cfg visited queued url = Err e
  | Ok p =>
      is_valid_url cfg visited queued url =
      Ok (bool_decide (netloc p = domain cfg /\
                       startswith (rstrip "/"%char (path p)) (base_path cfg) = true /\
                       (url ∉ visited) /\ (url ∉ queued) /\
                       endswith_any url excluded_extensions = false))
  end.
Proof.
  unfold is_valid_url.
  destruct (urlparse url) as [p|e]; cbn [negb orb res_bind]; [|done].
  destruct (String.eqb (netloc p) (domain cfg)) eqn:E1; cbn [negb orb res_bind].
  2:{ f_equal. symmetry. apply bool_decide_eq_false. intros [E _].
      apply String.eqb_neq in E1. done. }
  apply String.eqb_eq in E1.
  destruct (startswith (rstrip "/" (path p)) (base_path cfg)) eqn:E2; cbn [negb orb res_bind].
  2:{ f_equal. symmetry. apply bool_decide_eq_false. intros (_ & E & _). congruence. }
  destruct (bool_decide (url ∈ visited)) eqn:E3; cbn [negb orb res_bind].
  { f_equal. symmetry. apply bool_decide_eq_false. intros (_ & _ & E & _).
    apply bool_decide_eq_true in E3. done. }
  destruct (bool_decide (url ∈ queued)) eqn:E4; cbn [negb orb res_bind].
  { f_equal. symmetry. apply bool_decide_eq_false. intros (_ & _ & _ & E & _).
    apply bool_decide_eq_true in E4. done. }
  apply bool_decide_eq_false in E3, E4.
  destruct (endswith_any url excluded_extensions) eqn:E5; f_equal; symmetry.
  - apply bool_decide_eq_false. intros (_ & _ & _ & _ & E). congruence.
  - apply bool_decide_eq_true. done.
Qed.

End NormalizeValid.

(** C7 counterexample: a URL ending in two slashes loses both. *)
Lemma normalize_url_two_slashes :
  @normalize_url offline_lib "https://a.com/x//" = Ok "https://a.com/x"%string.
Proof. vm_compute. reflexivity. Qed.

(** C4 counterexample: the extension test reads the URL string, not its
    path. A path ending in ".png" with a query is accepted; a path without
    an excluded extension whose query ends in ".zip" is rejected. *)
Lemma is_valid_url_extension_on_url :
  let cfg := mkConfig "https://a.com/docs" "/docs" 100 "a.com" in
  @is_valid_url offline_lib cfg ∅ ∅ "https://a.com/docs/x.png?v=1" = Ok true /\
  (exists p, @UrlParse.urlparse offline_lib "https://a.com/docs/x.png?v=1" = Ok p /\
     Py.endswith (UrlParse.path p) ".png" = true) /\
  @is_valid_url offline_lib cfg ∅ ∅ "https://a.com/docs/get?f=a.zip" = Ok false /\
  (exists p, @UrlParse.urlparse offline_lib "https://a.com/docs/get?f=a.zip" = Ok p /\
     UrlParse.netloc p = "a.com" /\ UrlParse.path p = "/docs/get" /\
     Py.endswith_any (UrlParse.path p) excluded_extensions = false).
Proof.
  simpl. split; [vm_compute; reflexivity|].
  split; [eexists; split; [vm_compute; reflexivity|vm_compute; reflexivity]|].
  split; [vm_compute; reflexivity|].
  eexists. split; [vm_compute; reflexivity|]. vm_compute. auto.
Qed.

(* ------------------------------------------------------------------ *)
(** ** [extract_links] and [extract_pdf_content] *)

Section ExtractFacts.
Context `{PyLib}.
Import Py.

Lemma is_valid_url_true (cfg : config) (visited queued : gset string) (url : string) :
  is_valid_url cfg visited queued url = Ok true ->
  (url ∉ visited) /\ (url ∉ queued) /\ in_scope cfg url.
Proof.
  pose proof (is_valid_url_spec cfg visited queued url) as Hs.
  destruct (UrlParse.urlparse url) as [p|e] eqn:Hp; rewrite Hs; [|done].
  intros [= Hb]. apply bool_decide_eq_true in Hb as (E1 & E2 & E3 & E4 & E5).
  split; [done|]. split; [done|]. exists p. done.
Qed.

(** Link extraction changes only [queued_urls], which only grows; the links
    it returns are the ones before, then new, pairwise distinct URLs that
    were not queued before, are queued now, and are in scope. *)
Lemma extract_links_loop_spec (cfg : config) (cu : string) (hrefs links : list string)
    (s : state) :
  let '(r, s') := extract_links_loop cfg cu hrefs links s in
  s' = set_queued (queued_urls s') s /\ queued_urls s ⊆ queued_urls s' /\
  (forall res, r = Ok res -> exists new, res = links ++ new /\ NoDup new /\
     forall x, x ∈ new -> (x ∉ queued_urls s) /\ x ∈ queued_urls s' /\ in_scope cfg x).
Proof.
  revert links s. induction hrefs as [|href hrefs IH]; intros links s.
  - simpl. split; [by destruct s|]. split; [done|].
    intros res [= <-]. exists []. rewrite app_nil_r. split; [done|].
    split; [constructor|]. intros x Hx. by apply elem_of_nil in Hx.
  - cbn [extract_links_loop]. unfold bind, lift.
    destruct (urljoin cu href) as [a|e]; [|split; [by destruct s|done]].
    destruct (normalize_url a) as [b|e]; [|split; [by destruct s|done]].
    destruct (is_valid_url cfg (visited_urls s) (queued_urls s) b) as [[|]|e] eqn:Hv.
    + unfold modify.
      specialize (IH (links ++ [b]) (set_queued ({[b]} ∪ queued_urls s) s)).
      destruct (extract_links_loop _ _ _ _ _) as [r s'] eqn:Hrun.
      destruct IH as (Hs' & Hq & Hr). simpl in Hs', Hq.
      apply is_valid_url_true in Hv as (Hb1 & Hb2 & Hb3).
      split; [rewrite Hs'; by destruct s|]. split; [set_solver|].
      intros res Hres. destruct (Hr res Hres) as (new & -> & Hnd & Hnew).
      exists (b :: new). rewrite <- app_assoc. split; [done|]. split.
      * constructor; [|done]. intros Hin. destruct (Hnew b Hin) as [Hn _]. set_solver.
      * intros x [->|Hx]%elem_of_cons; [set_solver|].
        destruct (Hnew x Hx) as (Hx1 & Hx2 & Hx3). set_solver.
    + apply IH.
    + split; [by destruct s|done].
Qed.

Lemma extract_links_spec (cfg : config) (soup : node) (cu : string) (s : state) :
  let '(r, s') := extract_links cfg soup cu s in
  s' = set_queued (queued_urls s') s /\ queued_urls s ⊆ queued_urls s' /\
  (forall res, r = Ok res -> NoDup res /\
     forall x, x ∈ res -> (x ∉ queued_urls s) /\ x ∈ queued_urls s' /\ in_scope cfg x).
Proof.
  unfold extract_links. pose proof (extract_links_loop_spec cfg cu (a_hrefs soup) [] s) as Hs.
  destruct (extract_links_loop _ _ _ _ _) as [r s']. destruct Hs as (H1 & H2 & H3).
  split; [done|]. split; [done|]. intros res Hres. destruct (H3 res Hres) as (new & -> & Hn).
  done.
Qed.

(** [extract_pdf_content] never raises; it logs at most a PDF warning. *)
Lemma extract_pdf_content_spec (c url : string) (s : state) :
  exists d evs, extract_pdf_content c url s = (Ok d, set_events (events s ++ evs) s) /\
    Forall pdf_warning evs /\ doc_url d = url /\
    (forall e, pdf_read c = Err e ->
       doc_content d = EmptyString /\ doc_title d = split_last "/"%char url /\
       evs = [LogWarnPdf url e]).
Proof.
  unfold extract_pdf_content. destruct (pdf_read c) as [rd|e].
  - eexists _, []. rewrite app_nil_r. split; [unfold ret; by destruct s|].
    split; [constructor|]. split; [done|]. done.
  - eexists _, [LogWarnPdf url e]. split; [reflexivity|].
    split; [repeat constructor; eexists _, _; done|]. split; [done|].
    intros e' [= <-]. done.
Qed.

End ExtractFacts.

(* ------------------------------------------------------------------ *)
(** ** One pass through the [try] block: [scrape_url] *)

Section ScrapeUrlFacts.
Context `{PyLib}.
Import Py.

(** What the [try] block does for [url]: one request for [url], then only
    PDF warnings, and a final 0.51 s sleep exactly when it ends without
    raising; [visited_urls] gains at most [url]; [queued_urls] only grows;
    [urls_to_visit] is extended by new, distinct, previously unqueued,
    in-scope URLs; at most one document is appended. *)
Lemma scrape_url_spec (cfg : config) (url : string) (s : state) :
  let '(r, s') := scrape_url cfg url s in
  exists evs new ds,
    Forall pdf_warning evs /\
    ((r = Ok tt /\ events s' = events s ++ HttpGet url :: evs ++ [Sleep (51 # 100)]) \/
     ((exists e, r = Err e) /\ events s' = events s ++ HttpGet url :: evs)) /\
    ((visited_urls s' = visited_urls s /\ new = []) \/
     visited_urls s' = {[url]} ∪ visited_urls s) /\
    queued_urls s ⊆ queued_urls s' /\
    urls_to_visit s' = urls_to_visit s ++ new /\ NoDup new /\
    (forall x, x ∈ new -> (x ∉ queued_urls s) /\ x ∈ queued_urls s' /\ in_scope cfg x) /\
    documents s' = documents s ++ ds /\ (length ds <= 1)%nat.
Proof.
  unfold scrape_url, bind, lift, emit, modify, ret, append_document.
  destruct (requests_get url) as [resp|e]; cbn beta iota.
  2:{ exists [], [], []. rewrite !app_nil_r. split; [constructor|].
      split; [right; eauto|]. split; [left; split; done|]. split; [done|]. split; [done|].
      split; [constructor|]. split; [intros x Hx; by apply elem_of_nil in Hx|].
      split; [done|simpl; lia]. }
  destruct (raise_for_status resp) as [[]|e]; cbn beta iota.
  2:{ exists [], [], []. rewrite !app_nil_r. split; [constructor|].
      split; [right; eauto|]. split; [left; split; done|]. split; [done|]. split; [done|].
      split; [constructor|]. split; [intros x Hx; by apply elem_of_nil in Hx|].
      split; [done|simpl; lia]. }
  destruct (endswith url ".pdf" || contains _ "application/pdf").
  - match goal with |- context [extract_pdf_content ?c ?u ?st] =>
      destruct (extract_pdf_content_spec c u st) as (d & evs & Hx & Hw & _) end.
    rewrite Hx. cbn beta iota.
    destruct (negb (strip (doc_content d) =? "")%string); cbn beta iota.
    + exists evs, [], [d]. split; [done|]. simpl. rewrite !app_nil_r.
      split; [left; split; [done|]; by rewrite <- !app_assoc|].
      split; [by right|]. split; [done|]. split; [done|]. split; [constructor|].
      split; [intros x Hx'; by apply elem_of_nil in Hx'|]. split; [done|]. simpl; lia.
    + exists evs, [], []. split; [done|]. simpl. rewrite !app_nil_r.
      split; [left; split; [done|]; by rewrite <- !app_assoc|].
      split; [by right|]. split; [done|]. split; [done|]. split; [constructor|].
      split; [intros x Hx'; by apply elem_of_nil in Hx'|]. split; [done|]. simpl; lia.
  - destruct (html_parse (resp_content resp)) as [soup|e]; cbn beta iota.
    2:{ exists [], [], []. rewrite !app_nil_r. split; [constructor|].
        split; [right; eauto|]. split; [by right|]. split; [done|]. split; [done|].
        split; [constructor|]. split; [intros x Hx; by apply elem_of_nil in Hx|].
        split; [done|simpl; lia]. }
    destruct (extract_content soup url) as [[soup' d]|e]; cbn beta iota.
    2:{ exists [], [], []. rewrite !app_nil_r. split; [constructor|].
        split; [right; eauto|]. split; [by right|]. split; [done|]. split; [done|].
        split; [constructor|]. split; [intros x Hx; by apply elem_of_nil in Hx|].
        split; [done|simpl; lia]. }
    destruct (negb (strip (doc_content d) =? "")%string); unfold modify; cbn beta iota;
    match goal with |- context [extract_links cfg soup' url ?st] =>
      pose proof (extract_links_spec cfg soup' url st) as Hl;
      destruct (extract_links cfg soup' url st) as [[links|e] s3] eqn:Hrun end;
    destruct Hl as (Hs3 & Hq3 & Hr3); cbn beta iota.
    + destruct (Hr3 links eq_refl) as [Hnd Hnew].
      exists [], links, [d]. split; [constructor|]. rewrite Hs3. simpl.
      split; [left; split; [done|]; by rewrite <- !app_assoc|].
      split; [by right|]. split; [simpl in Hq3; done|]. split; [done|].
      split; [done|]. split; [|split; [done|simpl; lia]].
      intros x Hx. destruct (Hnew x Hx) as (Ha & Hb & Hc). simpl in Ha, Hb. done.
    + exists [], [], [d]. split; [constructor|]. rewrite Hs3. simpl.
      split; [right; split; [eauto|]; done|].
      split; [by right|]. split; [simpl in Hq3; done|]. split; [by rewrite app_nil_r|].
      split; [constructor|]. split; [intros x Hx; by apply elem_of_nil in Hx|].
      split; [done|simpl; lia].
    + destruct (Hr3 links eq_refl) as [Hnd Hnew].
      exists [], links, []. split; [constructor|]. rewrite Hs3. simpl.
      split; [left; split; [done|]; by rewrite <- !app_assoc|].
      split; [by right|]. split; [simpl in Hq3; done|]. split; [done|].
      split; [done|]. split; [|split; [by rewrite app_nil_r|simpl; lia]].
      intros x Hx. destruct (Hnew x Hx) as (Ha & Hb & Hc). simpl in Ha, Hb. done.
    + exists [], [], []. split; [constructor|]. rewrite Hs3. simpl.
      split; [right; split; [eauto|]; done|].
      split; [by right|]. split; [simpl in Hq3; done|]. split; [by rewrite app_nil_r|].
      split; [constructor|]. split; [intros x Hx; by apply elem_of_nil in Hx|].
      split; [by rewrite app_nil_r|simpl; lia].
Qed.

(** One iteration of the loop body, from a non-empty [urls_to_visit]. It
    never raises: an already visited URL is skipped after the log line;
    otherwise the [try] block runs and ends with the 0.51 s sleep, or its
    exception is logged as a warning. *)
Lemma scrape_iter_spec (cfg : config) (s : state) (url : string) (rest : list string) :
  urls_to_visit s = url :: rest ->
  let info := LogInfo (Z.of_nat (size (visited_urls s)) + 1) (total_pages s) url in
  let '(r, s') := scrape_iter cfg s in
  r = Ok tt /\
  ((url ∈ visited_urls s /\ s' = set_events (events s ++ [info]) (set_urls_to_visit rest s)) \/
   ((url ∉ visited_urls s) /\ exists evs tail new ds,
      Forall pdf_warning evs /\
      (tail = [Sleep (51 # 100)] \/ exists e, tail = [LogWarnScrape url e]) /\
      events s' = events s ++ info :: HttpGet url :: evs ++ tail /\
      ((visited_urls s' = visited_urls s /\ new = []) \/
       visited_urls s' = {[url]} ∪ visited_urls s) /\
      queued_urls s ⊆ queued_urls s' /\
      urls_to_visit s' = rest ++ new /\ NoDup new /\
      (forall x, x ∈ new -> (x ∉ queued_urls s) /\ x ∈ queued_urls s' /\ in_scope cfg x) /\
      documents s' = documents s ++ ds /\ (length ds <= 1)%nat)).
Proof.
  intros Hq. unfold scrape_iter, bind, pop0, gets, emit, modify, ret. rewrite Hq.
  cbn beta iota.
  cbn [set_events set_urls_to_visit visited_urls events total_pages].
  destruct (bool_decide (url ∈ visited_urls s)) eqn:Hv.
  - apply bool_decide_eq_true in Hv. split; [done|]. left. split; [done|]. done.
  - apply bool_decide_eq_false in Hv. unfold try_except.
    match goal with |- context [scrape_url cfg url ?sb] =>
      pose proof (scrape_url_spec cfg url sb) as Hs;
      destruct (scrape_url cfg url sb) as [[[]|e] sc] end;
    destruct Hs as (evs & new & ds & Hw & Hev & Hvis & Hqu & Hurl & Hnd & Hnew & Hdoc & Hlen);
    simpl in Hvis, Hqu, Hurl, Hnew, Hdoc.
    + split; [done|]. right. split; [done|].
      destruct Hev as [[_ Hev]|[[e' He] _]]; [|discriminate].
      simpl in Hev. exists evs, [Sleep (51 # 100)], new, ds.
      split; [done|]. split; [by left|]. split; [rewrite Hev; by rewrite <- app_assoc|].
      done.
    + split; [done|]. right. split; [done|].
      destruct Hev as [[He _]|[_ Hev]]; [discriminate|].
      simpl in Hev. exists evs, [LogWarnScrape url e], new, ds.
      split; [done|]. split; [right; eauto|]. simpl.
      split; [rewrite Hev; by rewrite <- !app_assoc|]. done.
Qed.

(** Once the response is in and [raise_for_status] passes, [url] is in
    [visited] when the [try] block ends, whether it raises later or not. *)
Lemma scrape_url_visited (cfg : config) (url : string) (s : state) (resp : response) :
  requests_get url = Ok resp -> raise_for_status resp = Ok tt ->
  visited_urls (snd (scrape_url cfg url s)) = {[url]} ∪ visited_urls s.
Proof.
  intros Hg Hr. unfold scrape_url, bind, lift, emit, modify, ret, append_document.
  rewrite Hg. cbn beta iota. rewrite Hr. cbn beta iota.
  destruct (endswith url ".pdf" || contains _ "application/pdf").
  - match goal with |- context [extract_pdf_content ?c ?u ?st] =>
      destruct (extract_pdf_content_spec c u st) as (d & evs & Hx & _) end.
    rewrite Hx. cbn beta iota. destruct (negb _); reflexivity.
  - destruct (html_parse (resp_content resp)) as [soup|e]; cbn beta iota; [|reflexivity].
    destruct (extract_content soup url) as [[soup' d]|e]; cbn beta iota; [|reflexivity].
    destruct (negb (strip (doc_content d) =? "")%string); unfold modify; cbn beta iota;
    match goal with |- context [extract_links cfg soup' url ?st] =>
      pose proof (extract_links_spec cfg soup' url st) as Hl;
      destruct (extract_links cfg soup' url st) as [[links|e] s3] eqn:Hrun end;
    destruct Hl as (Hs3 & _); cbn beta iota; rewrite Hs3; reflexivity.
Qed.

End ScrapeUrlFacts.

(* ------------------------------------------------------------------ *)
(** ** The crawl loop *)

Section CrawlFacts.
Context `{PyLib}.
Import Py.

Lemma http_gets_app (l1 l2 : list event) :
  http_gets (l1 ++ l2) = http_gets l1 ++ http_gets l2.
Proof. unfold http_gets. apply omap_app. Qed.

Lemma pdf_warnings_facts (evs : list event) :
  Forall pdf_warning evs ->
  http_gets evs = [] /\ existsb is_sleep evs = false /\ existsb is_scrape_warning evs = false.
Proof.
  induction 1 as [|ev evs (u & e & ->) _ (IH1 & IH2 & IH3)]; [done|].
  split; [exact IH1|]. simpl. by rewrite IH2, IH3.
Qed.

Lemma tail_facts (url : string) (tail : list event) :
  (tail = [Sleep (51 # 100)] \/ exists e, tail = [LogWarnScrape url e]) ->
  http_gets tail = [].
Proof. by intros [->|[e ->]]. Qed.

Lemma init_spec (b : string) (mp : Z) (cfg : config) (s0 : state) :
  init b mp = Ok (cfg, s0) -> max_pages cfg = mp /\ s0 = mkState ∅ ∅ [] [] 0 [].
Proof.
  unfold init. destruct (UrlParse.urlparse b); [|done]. simpl.
  by intros [= <- <-].
Qed.

Lemma scrape_start_spec (cfg : config) (s0 s1 : state) :
  scrape_start cfg s0 = (Ok tt, s1) ->
  exists n, normalize_url (base_url cfg) = Ok n /\
    urls_to_visit s1 = [n] /\ queued_urls s1 = {[n]} ∪ queued_urls s0 /\
    visited_urls s1 = visited_urls s0 /\ events s1 = events s0 /\
    documents s1 = documents s0.
Proof.
  unfold scrape_start, bind, lift, modify. destruct (normalize_url (base_url cfg)) as [n|e]; [|done].
  intros [= <-]. by exists n.
Qed.

Lemma loop_guard_true (cfg : config) (s : state) :
  loop_guard cfg s = true ->
  exists url rest, urls_to_visit s = url :: rest /\
    Z.of_nat (size (visited_urls s)) < max_pages cfg.
Proof.
  unfold loop_guard. intros [Hne Hlt]%andb_true_iff.
  destruct (urls_to_visit s) as [|url rest]; [done|].
  exists url, rest. split; [done|]. by apply Z.ltb_lt.
Qed.

Lemma reachable_max_pages (b : string) (mp : Z) (cfg : config) (s : state) :
  reachable b mp cfg s -> max_pages cfg = mp.
Proof.
  induction 1 as [cfg s0 s1 Hi _|]; [|done].
  by apply init_spec in Hi as [? _].
Qed.

Lemma crawl_inv_start (b : string) (mp : Z) (cfg : config) (s0 s1 : state) :
  init b mp = Ok (cfg, s0) -> scrape_start cfg s0 = (Ok tt, s1) -> crawl_inv cfg s1.
Proof.
  intros Hi Hs. apply init_spec in Hi as [_ ->].
  apply scrape_start_spec in Hs as (n & _ & Hu & Hq & Hv & He & _).
  unfold crawl_inv. rewrite Hu, Hq, Hv, He. cbn [visited_urls queued_urls events urls_to_visit].
  split; [constructor|]. split; [apply NoDup_singleton|].
  split; [intros x ->%list_elem_of_singleton; split; [set_solver|apply not_elem_of_nil]|].
  split; [intros x Hx; by apply elem_of_nil in Hx|].
  split; [set_solver|]. rewrite size_empty. lia.
Qed.

Lemma crawl_inv_step (cfg : config) (s : state) :
  crawl_inv cfg s -> loop_guard cfg s = true -> crawl_inv cfg (snd (scrape_iter cfg s)).
Proof.
  intros (Hg & Hp & Hpq & Hgq & Hvg & Hsz) Hguard.
  destruct (loop_guard_true cfg s Hguard) as (url & rest & Hq & Hlt).
  pose proof (scrape_iter_spec cfg s url rest Hq) as Hs. cbv zeta in Hs.
  destruct (scrape_iter cfg s) as [r s'] eqn:E. simpl.
  rewrite Hq in Hp, Hpq. apply NoDup_cons in Hp as [Hurl_rest Hp].
  destruct (Hpq url) as [Hurl_q Hurl_g]; [by left|].
  destruct Hs as [_ [[Hin ->] | [Hnin (evs & tail & new & ds & Hw & Htail & Hev & Hvis & Hqu
                                       & Hurl & Hnd & Hnew & _)]]].
  - unfold crawl_inv. cbn. rewrite http_gets_app. simpl. rewrite app_nil_r.
    split; [done|]. split; [done|].
    split; [intros x Hx; apply Hpq; by right|]. done.
  - apply pdf_warnings_facts in Hw as (Hw & _).
    assert (Hgets : http_gets (events s') = http_gets (events s) ++ [url]).
    { rewrite Hev, http_gets_app. simpl. rewrite http_gets_app, Hw, (tail_facts url tail Htail).
      done. }
    unfold crawl_inv. rewrite Hgets, Hurl.
    split.
    { apply NoDup_app. split; [done|]. split; [|apply NoDup_singleton].
      intros x Hx ->%list_elem_of_singleton. done. }
    split.
    { apply NoDup_app. split; [done|]. split; [|done].
      intros x Hx Hxn. destruct (Hnew x Hxn) as [Hxq _].
      apply Hxq, Hpq. by right. }
    split.
    { intros x [Hx|Hx]%elem_of_app.
      - destruct (Hpq x) as [Hxq Hxg]; [by right|]. split; [set_solver|].
        intros [Hx2| ->%list_elem_of_singleton]%elem_of_app; [done|done].
      - destruct (Hnew x Hx) as (Hxq & Hxq' & _). split; [done|].
        intros [Hx2| ->%list_elem_of_singleton]%elem_of_app; [by apply Hxq, Hgq|done]. }
    split.
    { intros x [Hx| ->%list_elem_of_singleton]%elem_of_app; [|set_solver].
      apply Hqu, Hgq, Hx. }
    destruct Hvis as [[-> _]|Hv].
    + split; [set_solver|done].
    + rewrite Hv. split; [set_solver|].
      rewrite size_union, size_singleton; [|set_solver].
      lia.
Qed.

Lemma reachable_crawl_inv (b : string) (mp : Z) (cfg : config) (s : state) :
  reachable b mp cfg s -> crawl_inv cfg s.
Proof.
  induction 1 as [cfg s0 s1 Hi Hs|cfg s _ IH Hg].
  - by eapply crawl_inv_start.
  - by apply crawl_inv_step.
Qed.

Lemma scrape_loop_reachable (b : string) (mp : Z) (cfg : config) (fuel : nat) (s s' : state) :
  reachable b mp cfg s -> scrape_loop cfg fuel s = Some s' ->
  reachable b mp cfg s' /\ loop_guard cfg s' = false.
Proof.
  revert s. induction fuel as [|fuel IH]; intros s Hr; [done|]. simpl.
  destruct (loop_guard cfg s) eqn:Hg.
  - intros Hl. apply (IH _ (reach_step _ _ _ _ Hr Hg) Hl).
  - by intros [= <-].
Qed.

(** The state a completed crawl returns its documents from is a state of
    the crawl, where the loop's condition fails. *)
Lemma crawl_reachable (b : string) (mp : Z) (fuel : nat) (docs : list doc) (s' : state) :
  crawl b mp fuel = Some (Ok docs, s') ->
  exists cfg, reachable b mp cfg s' /\ loop_guard cfg s' = false /\ docs = documents s'.
Proof.
  unfold crawl, scrape.
  destruct (init b mp) as [[cfg s0]|e] eqn:Hi; [|done].
  destruct (scrape_start cfg s0) as [[[]|e] s1] eqn:Hs; [|done].
  destruct (scrape_loop cfg fuel s1) as [s2|] eqn:Hl; [|done].
  intros [= <- <-]. exists cfg.
  destruct (scrape_loop_reachable b mp cfg fuel s1 s2 (reach_start _ _ _ _ _ Hi Hs) Hl).
  done.
Qed.

(** C1 (as amended). In every state of a crawl, in particular the final
    one, no URL has been requested twice, every visited URL has been
    requested, and [visited] has at most [max(0, max_pages)] elements. *)
Theorem crawl_no_refetch (b : string) (mp : Z) (cfg : config) (s : state) :
  reachable b mp cfg s ->
  NoDup (http_gets (events s)) /\
  (forall x, x ∈ visited_urls s -> x ∈ http_gets (events s)) /\
  Z.of_nat (size (visited_urls s)) <= Z.max 0 mp.
Proof.
  intros Hr. pose proof (reachable_max_pages b mp cfg s Hr) as Hm.
  destruct (reachable_crawl_inv b mp cfg s Hr) as (Hg & _ & _ & _ & Hv & Hs).
  rewrite <- Hm. done.
Qed.

(** An iteration either leaves [visited] as it is and shortens the queue,
    or adds a URL to [visited]. *)
Lemma scrape_iter_progress (cfg : config) (s : state) :
  loop_guard cfg s = true ->
  (visited_urls (snd (scrape_iter cfg s)) = visited_urls s /\
   (length (urls_to_visit (snd (scrape_iter cfg s))) < length (urls_to_visit s))%nat) \/
  size (visited_urls (snd (scrape_iter cfg s))) = S (size (visited_urls s)).
Proof.
  intros Hg. destruct (loop_guard_true cfg s Hg) as (url & rest & Hq & _).
  pose proof (scrape_iter_spec cfg s url rest Hq) as Hs. cbv zeta in Hs.
  destruct (scrape_iter cfg s) as [r s'] eqn:E. simpl. rewrite Hq.
  destruct Hs as [_ [[_ ->] | [Hnin (evs & tail & new & ds & _ & _ & _ & Hvis & _ & Hurl & _)]]].
  - left. split; [done|]. simpl. lia.
  - destruct Hvis as [[Hv ->]|Hv].
    + left. rewrite Hurl, Hv, app_nil_r. split; [done|]. simpl. lia.
    + right. rewrite Hv, size_union, size_singleton; [done|set_solver].
Qed.

Lemma scrape_loop_terminates (cfg : config) (n m : nat) (s : state) :
  (Z.to_nat (max_pages cfg - Z.of_nat (size (visited_urls s))) <= n)%nat ->
  (length (urls_to_visit s) <= m)%nat ->
  exists fuel s', scrape_loop cfg fuel s = Some s'.
Proof.
  revert m s. induction n as [|n IHn]; intros m; induction m as [|m IHm]; intros s Hn Hm.
  all: destruct (loop_guard cfg s) eqn:Hg; [|by exists 1%nat, s; simpl; rewrite Hg].
  all: destruct (loop_guard_true cfg s Hg) as (url & rest & Hq & Hlt).
  - lia.
  - lia.
  - rewrite Hq in Hm. simpl in Hm. lia.
  - destruct (scrape_iter_progress cfg s Hg) as [[Hv Hl]|Hv].
    + destruct (IHm (snd (scrape_iter cfg s))) as (fuel & s' & Hl').
      * by rewrite Hv.
      * lia.
      * exists (S fuel), s'. simpl. by rewrite Hg.
    + destruct (IHn (length (urls_to_visit (snd (scrape_iter cfg s)))) (snd (scrape_iter cfg s)))
        as (fuel & s' & Hl'); [rewrite Hv; lia|lia|].
      exists (S fuel), s'. simpl. by rewrite Hg.
Qed.

(** C9. Whatever the responses of the site are, a crawl ends: for every
    base URL and [max_pages] there is a bound on the iterations within
    which [scrape()] returns. *)
Theorem crawl_terminates (b : string) (mp : Z) :
  exists fuel out, crawl b mp fuel = Some out.
Proof.
  unfold crawl, scrape.
  destruct (init b mp) as [[cfg s0]|e]; [|by exists O; eexists].
  destruct (scrape_start cfg s0) as [[[]|e] s1]; [|by exists O; eexists].
  destruct (scrape_loop_terminates cfg
              (Z.to_nat (max_pages cfg - Z.of_nat (size (visited_urls s1))))
              (length (urls_to_visit s1)) s1) as (fuel & s' & Hl); [lia|lia|].
  exists fuel. rewrite Hl. by eexists.
Qed.

(** An iteration that takes [url] from the queue never raises. When [url] is new and its [try] block completes, the 0.51 s
    sleep is the iteration's last event and there is no other; when [url]
    was visited already, or the block raised (the iteration then logs a
    scraping warning), the iteration does not sleep. *)
Theorem scrape_iter_sleep (cfg : config) (s : state) (url : string) (rest : list string) :
  urls_to_visit s = url :: rest ->
  let '(r, s') := scrape_iter cfg s in
  r = Ok tt /\
  exists evs, events s' = events s ++ evs /\
   (((url ∉ visited_urls s) /\ existsb is_scrape_warning evs = false /\
     exists evs0, evs = evs0 ++ [Sleep (51 # 100)] /\ existsb is_sleep evs0 = false) \/
    ((url ∈ visited_urls s \/ existsb is_scrape_warning evs = true) /\
     existsb is_sleep evs = false)).
Proof.
  intros Hq. pose proof (scrape_iter_spec cfg s url rest Hq) as Hs. cbv zeta in Hs.
  destruct (scrape_iter cfg s) as [r s'].
  destruct Hs as [-> [[Hin ->] | [Hnin (evs & tail & new & ds & Hw & Htail & Hev & _)]]].
  - split; [done|]. eexists. split; [done|]. right. split; [by left|done].
  - split; [done|]. rewrite Hev. eexists. split; [done|].
    apply pdf_warnings_facts in Hw as (_ & Hs & Hsw).
    destruct Htail as [->|[e ->]].
    + left. split; [done|].
      split; [cbn [existsb is_scrape_warning orb]; by rewrite existsb_app, Hsw|].
      exists (LogInfo (Z.of_nat (size (visited_urls s)) + 1) (total_pages s) url :: HttpGet url :: evs).
      split; [done|]. by cbn [existsb is_sleep orb].
    + right. split.
      * right. cbn [existsb is_scrape_warning orb]. rewrite existsb_app. simpl.
        by rewrite orb_true_r.
      * cbn [existsb is_sleep orb]. by rewrite existsb_app, Hs.
Qed.

(** C3 (as amended). Every URL an iteration of the loop adds to the queue
    comes from link extraction and is in scope when it is enqueued: its host
    is the domain, its path without trailing slashes starts with the base
    path, and the URL string (its query included) does not end with an
    excluded extension. The queue after the iteration is the queue before
    it without its head, followed by these URLs. *)
Theorem enqueued_in_scope (cfg : config) (s : state) :
  exists new, urls_to_visit (snd (scrape_iter cfg s)) = List.tl (urls_to_visit s) ++ new /\
    forall x, x ∈ new -> in_scope cfg x.
Proof.
  destruct (urls_to_visit s) as [|url rest] eqn:Hq.
  - exists []. unfold scrape_iter, bind, pop0. rewrite Hq. simpl. rewrite Hq.
    split; [done|]. intros x Hx. by apply elem_of_nil in Hx.
  - pose proof (scrape_iter_spec cfg s url rest Hq) as Hs. cbv zeta in Hs.
    destruct (scrape_iter cfg s) as [r s']. simpl.
    destruct Hs as [_ [[_ ->] | [_ (evs & tail & new & ds & _ & _ & _ & _ & _ & Hurl & _ & Hnew & _)]]].
    + exists []. rewrite app_nil_r. split; [done|]. intros x Hx. by apply elem_of_nil in Hx.
    + exists new. split; [done|]. intros x Hx. apply (Hnew x Hx).
Qed.

(** C2. The 0.51 s sleep is the last statement of the [try] block, so an
    iteration whose request was answered and whose block then raises does
    not sleep: for a URL not visited yet, an answer with a status from 400
    to 599, or a non-PDF answer that passes [raise_for_status] and whose
    parsed page makes [extract_content] raise, ends the iteration with the
    request and a scraping warning, and no sleep. *)
Theorem answered_failure_no_sleep (cfg : config) (s : state) (url : string) (rest : list string)
    (resp : response) :
  urls_to_visit s = url :: rest ->
  url ∉ visited_urls s ->
  requests_get url = Ok resp ->
  (400 <= status_code resp < 600 \/
   exists soup e, raise_for_status resp = Ok tt /\
     (endswith url ".pdf" || contains (lower (header_get (resp_headers resp) "content-type"))
                               "application/pdf") = false /\
     html_parse (resp_content resp) = Ok soup /\ extract_content soup url = Err e) ->
  exists e, events (snd (scrape_iter cfg s)) =
    events s ++ [LogInfo (Z.of_nat (size (visited_urls s)) + 1) (total_pages s) url;
                 HttpGet url; LogWarnScrape url e].
Proof.
  intros Hq Hv Hg Hf.
  unfold scrape_iter, bind, pop0, gets, emit, modify, ret. rewrite Hq. cbn beta iota.
  cbn [set_events set_urls_to_visit visited_urls events total_pages].
  rewrite bool_decide_eq_false_2 by done.
  unfold try_except, scrape_url, bind, lift, emit, modify. rewrite Hg. cbn beta iota.
  destruct Hf as [Hst|(soup & e & Hr & Hpdf & Hp & He)].
  - exists HTTPError. unfold raise_for_status.
    replace ((400 <=? status_code resp) && (status_code resp <? 600)) with true
      by (symmetry; apply andb_true_iff; split; [apply Z.leb_le|apply Z.ltb_lt]; lia).
    cbn. rewrite <- !app_assoc. done.
  - exists e. rewrite Hr. cbn beta iota zeta. rewrite Hpdf. cbn beta iota.
    rewrite Hp. cbn beta iota. rewrite He. cbn. rewrite <- !app_assoc. done.
Qed.




End CrawlFacts.

(** C5 (as amended). When [requests.get] raises, or answers with a status
    from 400 to 599, for a URL that has not been visited, the iteration logs
    the request and a warning and changes nothing else: [visited], [queued]
    and the documents stay as they were, and the URL has left the queue.
    Any other response, whatever its status (a [304] for one), is not a
    failure: the URL is added to [visited] and the iteration goes on exactly
    as it would for a [200] response with the same headers and body. *)
Theorem fetch_failure_iteration (L : PyLib) (cfg : config) (s : state) (url : string)
    (rest : list string) :
  urls_to_visit s = url :: rest ->
  url ∉ visited_urls s ->
  (forall e,
     (@requests_get L url = Err e \/
      exists resp, @requests_get L url = Ok resp /\ 400 <= status_code resp < 600 /\ e = HTTPError) ->
     @scrape_iter L cfg s =
       (Ok tt, set_events (events s ++ [LogInfo (Z.of_nat (size (visited_urls s)) + 1) (total_pages s) url;
                                        HttpGet url; LogWarnScrape url e])
                 (set_urls_to_visit rest s))) /\
  (forall resp,
     @requests_get L url = Ok resp -> ~ (400 <= status_code resp < 600) ->
     url ∈ visited_urls (snd (@scrape_iter L cfg s)) /\
     @scrape_iter L cfg s = @scrape_iter (status_200 L) cfg s).
Proof.
  intros Hq Hv. split.
  - intros e Hf.
    unfold scrape_iter, bind, pop0, gets, emit, modify, ret. rewrite Hq. cbn beta iota.
    cbn [set_events set_urls_to_visit visited_urls events total_pages].
    rewrite bool_decide_eq_false_2 by done.
    unfold try_except, scrape_url, bind, lift, emit, modify.
    destruct Hf as [->|(resp & -> & Hst & ->)].
    + cbn. rewrite <- !app_assoc. done.
    + unfold raise_for_status.
      replace ((400 <=? status_code resp) && (status_code resp <? 600)) with true
        by (symmetry; apply andb_true_iff; split; [apply Z.leb_le|apply Z.ltb_lt]; lia).
      cbn. rewrite <- !app_assoc. done.
  - intros resp Hg Hst.
    assert (Hr : raise_for_status resp = Ok tt).
    { unfold raise_for_status.
      destruct (400 <=? status_code resp) eqn:E1; [|done].
      destruct (status_code resp <? 600) eqn:E2; [|done].
      apply Z.leb_le in E1. apply Z.ltb_lt in E2. lia. }
    split.
    + unfold scrape_iter, bind, pop0, gets, emit, modify, ret. rewrite Hq. cbn beta iota.
      cbn [set_events set_urls_to_visit visited_urls events total_pages].
      rewrite bool_decide_eq_false_2 by done.
      unfold try_except.
      match goal with |- context [@scrape_url L cfg url ?s1] =>
        pose proof (@scrape_url_visited L cfg url s1 resp Hg Hr) as Hvis;
        destruct (@scrape_url L cfg url s1) as [[[]|e] s2] end.
      * simpl in Hvis |- *. rewrite Hvis. set_solver.
      * simpl in Hvis |- *. unfold emit, modify. simpl. rewrite Hvis. set_solver.
    + unfold scrape_iter, bind, pop0, gets, emit, modify, ret. rewrite Hq. cbn beta iota.
      cbn [set_events set_urls_to_visit visited_urls events total_pages].
      rewrite bool_decide_eq_false_2 by done.
      unfold try_except, scrape_url, bind, lift, emit, modify.
      cbn [requests_get status_200]. rewrite Hg. cbn beta iota. rewrite Hr.
      cbn beta iota. reflexivity.
Qed.

(** C6. [extract_content] raises on a page whose parse has no [<body>]:
    [html.parser] gives [<p>hi</p>] no [<body>], so [main_content] is
    [None] and [main_content.find_all] raises [AttributeError]. *)
Theorem extract_content_fragment_raises `{PyLib} (url : string) :
  extract_content fragment_soup url = Err AttributeError.
Proof. reflexivity. Qed.

(* ------------------------------------------------------------------ *)
(** ** Trees *)

Module SoupFacts.
Import Soup.

#[local] Arguments is_tag_in : simpl never.
#[local] Arguments id_in : simpl never.

Lemma node_ind' (P : node -> Prop) :
  (forall i n a kids, Forall P kids -> P (Elem i n a kids)) ->
  (forall s, P (Text s)) -> forall t, P t.
Proof.
  intros fe ft. fix IH 1. intros [i n a kids|s]; [|apply ft].
  apply fe. induction kids as [|k ks IHks]; constructor; [apply IH|apply IHks].
Qed.

Lemma descendants_elem i n a kids :
  descendants (Elem i n a kids) = concat (map (fun k => k :: descendants k) kids).
Proof.
  induction kids as [|k ks IH]; [done|]. simpl in *. by rewrite IH.
Qed.

Lemma decompose_elem i j n a kids :
  decompose i (Elem j n a kids) =
  Elem j n a (map (decompose i) (List.filter (fun k => negb (bool_decide (node_id k = Some i))) kids)).
Proof.
  induction kids as [|k ks IH]; [done|]. simpl in *. injection IH; intros IH2.
  destruct (bool_decide (node_id k = Some i)); simpl; by rewrite IH2.
Qed.

Lemma prune_ids_elem ids j n a kids :
  prune_ids ids (Elem j n a kids) =
  Elem j n a (map (prune_ids ids) (List.filter (fun k => negb (id_in ids k)) kids)).
Proof.
  induction kids as [|k ks IH]; [done|]. simpl in *. injection IH; intros IH2.
  destruct (id_in ids k); simpl; by rewrite IH2.
Qed.

Lemma strip_removed_elem j n a kids :
  strip_removed (Elem j n a kids) =
  Elem j n a (map strip_removed (List.filter (fun k => negb (is_tag_in removed_tags k)) kids)).
Proof.
  induction kids as [|k ks IH]; [done|]. simpl in *. injection IH; intros IH2.
  destruct (is_tag_in removed_tags k); simpl; by rewrite IH2.
Qed.

Lemma desc_ids_elem j n a kids :
  omap node_id (descendants (Elem j n a kids)) = concat (map all_ids kids).
Proof.
  rewrite descendants_elem.
  induction kids as [|k ks IH]; [done|]. cbn [map concat].
  rewrite omap_app, IH. done.
Qed.

Lemma all_ids_elem j n a kids :
  all_ids (Elem j n a kids) = j :: concat (map all_ids kids).
Proof. rewrite <- (desc_ids_elem j n a kids). done. Qed.

Lemma elem_of_desc_elem x j n a kids :
  x ∈ descendants (Elem j n a kids) <-> exists k, k ∈ kids /\ (x = k \/ x ∈ descendants k).
Proof.
  rewrite descendants_elem. induction kids as [|k ks IH]; cbn [map concat].
  - split; [intros Hx; by apply elem_of_nil in Hx|]. intros (k & Hk & _). by apply elem_of_nil in Hk.
  - rewrite elem_of_app, elem_of_cons, IH. split.
    + intros [[->|Hx]|(k' & Hk' & Hx)].
      * exists k. split; [by left|by left].
      * exists k. split; [by left|by right].
      * exists k'. split; [by right|done].
    + intros (k' & [->|Hk']%elem_of_cons & Hx).
      * left. destruct Hx as [->|Hx]; [by left|by right].
      * right. by exists k'.
Qed.

Lemma desc_trans x y t : x ∈ descendants y -> y ∈ descendants t -> x ∈ descendants t.
Proof.
  revert x y. induction t as [j n a kids IH|st] using node_ind'; intros x y Hx Hy.
  - apply elem_of_desc_elem in Hy as (k & Hk & Hy). apply elem_of_desc_elem.
    exists k. split; [done|]. right. destruct Hy as [->|Hy]; [done|].
    rewrite Forall_forall in IH. by apply (IH k Hk x y).
  - by apply elem_of_nil in Hy.
Qed.

Lemma elem_of_all_ids i t :
  i ∈ all_ids t <-> exists x, (x = t \/ x ∈ descendants t) /\ node_id x = Some i.
Proof.
  unfold all_ids. rewrite list_elem_of_omap. split.
  - intros (x & Hx & Hi). exists x. split; [|done]. by apply elem_of_cons in Hx.
  - intros (x & Hx & Hi). exists x. split; [|done]. apply elem_of_cons. done.
Qed.

Lemma all_ids_sub x t i :
  (x = t \/ x ∈ descendants t) -> i ∈ all_ids x -> i ∈ all_ids t.
Proof.
  intros Hx (y & Hy & Hi)%elem_of_all_ids. apply elem_of_all_ids. exists y. split; [|done].
  destruct Hx as [->|Hx]; [done|]. right. destruct Hy as [->|Hy]; [done|]. by apply (desc_trans _ x).
Qed.

Lemma desc_ids_sub x t i :
  x ∈ descendants t -> i ∈ omap node_id (descendants x) -> i ∈ omap node_id (descendants t).
Proof.
  intros Hx (y & Hy & Hi)%list_elem_of_omap. apply list_elem_of_omap. exists y.
  split; [by apply (desc_trans _ x)|done].
Qed.

Lemma node_id_all_ids t i : node_id t = Some i -> i ∈ all_ids t.
Proof. intros Hi. apply elem_of_all_ids. exists t. split; [by left|done]. Qed.

Lemma NoDup_all_ids_root t i :
  NoDup (all_ids t) -> node_id t = Some i -> i ∉ omap node_id (descendants t).
Proof.
  intros Hnd Hi. destruct t as [j n a kids|st]; [|done]. injection Hi as <-.
  change (NoDup (j :: omap node_id (descendants (Elem j n a kids)))) in Hnd.
  by apply NoDup_cons in Hnd as [? _].
Qed.

Lemma NoDup_omap_unique (l : list node) x y i :
  NoDup (omap node_id l) -> x ∈ l -> y ∈ l -> node_id x = Some i -> node_id y = Some i -> x = y.
Proof.
  induction l as [|z l IH]; intros Hnd Hx Hy Hix Hiy; [by apply elem_of_nil in Hx|].
  apply elem_of_cons in Hx, Hy. simpl in Hnd. destruct (node_id z) as [iz|] eqn:Hz.
  - apply NoDup_cons in Hnd as [Hnin Hnd].
    destruct Hx as [->|Hx], Hy as [->|Hy]; [done| | |by apply IH].
    + exfalso. apply Hnin. rewrite Hix in Hz. injection Hz as <-.
      apply list_elem_of_omap. by exists y.
    + exfalso. apply Hnin. rewrite Hiy in Hz. injection Hz as <-.
      apply list_elem_of_omap. by exists x.
  - destruct Hx as [->|Hx]; [congruence|]. destruct Hy as [->|Hy]; [congruence|]. by apply IH.
Qed.

Lemma NoDup_all_ids_kid k j n a kids :
  NoDup (all_ids (Elem j n a kids)) -> k ∈ kids -> NoDup (all_ids k).
Proof.
  rewrite all_ids_elem. intros [_ Hnd]%NoDup_cons Hk.
  induction kids as [|k' ks IH]; [by apply elem_of_nil in Hk|]. cbn [map concat] in Hnd.
  apply NoDup_app in Hnd as (Hk' & _ & Hks). apply elem_of_cons in Hk as [->|Hk]; [done|].
  by apply IH.
Qed.

Lemma id_in_false ids k :
  (forall i, node_id k = Some i -> i ∉ ids) -> id_in ids k = false.
Proof.
  unfold id_in. destruct (node_id k) as [i|]; [|done]. intros Hi.
  apply bool_decide_eq_false_2. by apply Hi.
Qed.

Lemma prune_ids_disjoint ids t :
  (forall i, i ∈ all_ids t -> i ∉ ids) -> prune_ids ids t = t.
Proof.
  induction t as [j n a kids IH|st] using node_ind'; intros Hd; [|done].
  rewrite prune_ids_elem. f_equal. rewrite all_ids_elem in Hd.
  induction kids as [|k ks IHks]; [done|]. apply Forall_cons in IH as [IHk IH].
  cbn [map concat] in Hd.
  assert (Hk : forall i, i ∈ all_ids k -> i ∉ ids)
    by (intros i Hi; apply Hd; apply elem_of_cons; right; apply elem_of_app; by left).
  assert (Hks : forall i, i ∈ j :: concat (map all_ids ks) -> i ∉ ids).
  { intros i [->|Hi]%elem_of_cons; apply Hd; apply elem_of_cons; [by left|].
    right. apply elem_of_app. by right. }
  cbn [List.filter]. rewrite id_in_false by (intros i Hi; by apply Hk, node_id_all_ids).
  cbn [negb map]. rewrite IHk, IHks; done.
Qed.

Lemma replace_node_absent r u t :
  r ∉ all_ids t -> replace_node r u t = t.
Proof.
  induction t as [j n a kids IH|st] using node_ind'; intros Hr; [|done].
  simpl. f_equal. rewrite all_ids_elem, not_elem_of_cons in Hr. destruct Hr as [_ Hr].
  induction kids as [|k ks IHks]; [done|]. apply Forall_cons in IH as [IHk IH].
  cbn [map concat] in Hr |- *. apply not_elem_of_app in Hr as [Hrk Hrs].
  rewrite bool_decide_eq_false_2 by (intros Hk; by apply Hrk, node_id_all_ids).
  rewrite IHk, IHks; done.
Qed.

Lemma id_in_single i k : id_in [i] k = bool_decide (node_id k = Some i).
Proof.
  unfold id_in. destruct (node_id k) as [j|].
  - apply bool_decide_ext. rewrite list_elem_of_singleton. split; [by intros ->|congruence].
  - by rewrite bool_decide_eq_false_2.
Qed.

Lemma id_in_app A B k : id_in (B ++ A) k = id_in B k || id_in A k.
Proof.
  unfold id_in. destruct (node_id k) as [j|]; [|done].
  repeat case_bool_decide; try done; set_solver.
Qed.

Lemma id_in_prune A B k : id_in A (prune_ids B k) = id_in A k.
Proof. by destruct k. Qed.

Lemma decompose_prune i t : decompose i t = prune_ids [i] t.
Proof.
  induction t as [j n a kids IH|st] using node_ind'; [|done].
  rewrite decompose_elem, prune_ids_elem. f_equal.
  induction kids as [|k ks IHks]; [done|]. apply Forall_cons in IH as [IHk IH].
  simpl. rewrite id_in_single.
  destruct (bool_decide (node_id k = Some i)); simpl; rewrite (IHks IH); [done|]. by rewrite IHk.
Qed.

Lemma prune_ids_compose A B t : prune_ids A (prune_ids B t) = prune_ids (B ++ A) t.
Proof.
  induction t as [j n a kids IH|st] using node_ind'; [|done].
  rewrite !prune_ids_elem. f_equal.
  induction kids as [|k ks IHks]; [done|]. apply Forall_cons in IH as [IHk IH].
  simpl. rewrite id_in_app. destruct (id_in B k); simpl; [by apply IHks|].
  rewrite id_in_prune. destruct (id_in A k); simpl; rewrite (IHks IH); [done|]. by rewrite IHk.
Qed.

Lemma prune_ids_nil t : prune_ids [] t = t.
Proof. apply prune_ids_disjoint. intros i _. apply not_elem_of_nil. Qed.

(** The decompositions of [extract_content] cut off the elements they are
    given, whatever their order and nesting. *)
Lemma decompose_all_prune E t : decompose_all E t = prune_ids (omap node_id E) t.
Proof.
  unfold decompose_all. rewrite <- (prune_ids_nil t) at 1.
  change (omap node_id E) with ([] ++ omap node_id E).
  generalize (@nil nat) as B. induction E as [|e E IH]; intros B; simpl.
  - by rewrite app_nil_r.
  - destruct (node_id e) as [i|] eqn:He.
    + rewrite decompose_prune, prune_ids_compose, IH, <- app_assoc. done.
    + apply IH.
Qed.

Lemma desc_ids_all_ids t i : i ∈ omap node_id (descendants t) -> i ∈ all_ids t.
Proof.
  intros (x & Hx & Hi)%list_elem_of_omap. apply elem_of_all_ids. exists x. by split; [right|].
Qed.

Lemma NoDup_desc_ids t : NoDup (all_ids t) -> NoDup (omap node_id (descendants t)).
Proof.
  destruct t as [j n a kids|st]; [|intros _; constructor].
  intros Hnd. change (NoDup (j :: omap node_id (descendants (Elem j n a kids)))) in Hnd.
  by apply NoDup_cons in Hnd as [_ ?].
Qed.

Lemma NoDup_all_ids_desc t x : NoDup (all_ids t) -> x ∈ descendants t -> NoDup (all_ids x).
Proof.
  revert x. induction t as [j n a kids IH|st] using node_ind'; intros x Hnd Hx.
  - apply elem_of_desc_elem in Hx as (k & Hk & Hx). rewrite Forall_forall in IH.
    pose proof (NoDup_all_ids_kid k j n a kids Hnd Hk) as Hndk.
    destruct Hx as [->|Hx]; [done|]. by apply (IH k Hk).
  - by apply elem_of_nil in Hx.
Qed.

(** Below an element whose subtree has no id of [S] and not [r], neither
    cutting nor replacing changes anything. *)
Lemma kids_untouched S r u ks :
  (forall i, i ∈ concat (map all_ids ks) -> (i ∉ S) /\ i <> r) ->
  map (prune_ids S) (List.filter (fun k => negb (id_in S k)) ks) = ks /\
  map (fun k => if bool_decide (node_id k = Some r) then u else replace_node r u k) ks = ks.
Proof.
  induction ks as [|k ks IH]; intros Hd; [done|]. cbn [map concat] in Hd.
  assert (Hk : forall i, i ∈ all_ids k -> (i ∉ S) /\ i <> r)
    by (intros i Hi; apply Hd, elem_of_app; by left).
  destruct IH as [IH1 IH2]; [intros i Hi; apply Hd, elem_of_app; by right|].
  simpl. rewrite id_in_false by (intros i Hi; by apply Hk, node_id_all_ids).
  rewrite bool_decide_eq_false_2
    by (intros Hi; by apply (Hk r); [apply node_id_all_ids|]).
  simpl. rewrite IH1, IH2, prune_ids_disjoint, replace_node_absent; [done| |].
  - intros Hr. by apply (Hk r).
  - intros i Hi. by apply Hk.
Qed.

(** Cutting off ids of elements below [m] (id [r]) from a tree with
    distinct ids changes the tree only inside [m]. *)
Lemma prune_replace S r m t :
  NoDup (all_ids t) -> m ∈ descendants t -> node_id m = Some r ->
  (forall i, i ∈ S -> i ∈ omap node_id (descendants m)) ->
  prune_ids S t = replace_node r (prune_ids S m) t.
Proof.
  intros Hnd Hm Hr HS. revert Hnd Hm.
  induction t as [j n a kids IH|st] using node_ind'; intros Hnd Hm; [|by apply elem_of_nil in Hm].
  rewrite prune_ids_elem. simpl. f_equal.
  rewrite all_ids_elem in Hnd. apply NoDup_cons in Hnd as [_ Hnd].
  rewrite descendants_elem in Hm. revert Hnd Hm.
  induction kids as [|k ks IHks]; intros Hnd Hm; [by apply elem_of_nil in Hm|].
  apply Forall_cons in IH as [IHk IH]. cbn [map concat] in Hnd, Hm.
  apply NoDup_app in Hnd as (Hndk & Hdisj & Hnds).
  apply elem_of_app in Hm as [Hm|Hm].
  - assert (Hsub : forall i, i ∈ S \/ i = r -> i ∈ all_ids k).
    { intros i [Hi| ->].
      - apply HS in Hi. apply desc_ids_all_ids.
        apply elem_of_cons in Hm as [<-|Hm]; [done|]. by apply (desc_ids_sub m).
      - apply (all_ids_sub m); [by apply elem_of_cons in Hm|by apply node_id_all_ids]. }
    destruct (kids_untouched S r (prune_ids S m) ks) as [Ht1 Ht2].
    { intros i Hi. split.
      - intros HiS. apply (Hdisj i); [apply Hsub; by left|done].
      - intros ->. apply (Hdisj r); [apply Hsub; by right|done]. }
    apply elem_of_cons in Hm as [<-|Hm].
    + simpl. rewrite id_in_false.
      2:{ intros i Hi. rewrite Hr in Hi. injection Hi as <-. intros HrS.
          apply (NoDup_all_ids_root m r Hndk Hr), HS, HrS. }
      simpl. rewrite bool_decide_eq_true_2 by done. by rewrite Ht1, Ht2.
    + assert (Hki : exists i, node_id k = Some i)
        by (destruct k as [i kn ka kk|st]; [by exists i|by apply elem_of_nil in Hm]).
      destruct Hki as [i Hki].
      assert (Hri : i ∉ omap node_id (descendants k))
        by (by apply (NoDup_all_ids_root _ i Hndk)).
      simpl. rewrite id_in_false.
      2:{ intros i' Hi' HiS. rewrite Hki in Hi'. injection Hi' as <-.
          by apply Hri, (desc_ids_sub m), HS. }
      simpl. rewrite bool_decide_eq_false_2.
      2:{ rewrite Hki. intros [= ->]. apply Hri. apply list_elem_of_omap. by exists m. }
      rewrite Ht1, Ht2. by rewrite (IHk Hndk Hm).
  - assert (Hsub : forall i, i ∈ S \/ i = r -> i ∈ concat (map all_ids ks)).
    { rewrite <- (desc_ids_elem j n a ks).
      assert (Hm' : m ∈ descendants (Elem j n a ks)) by (by rewrite descendants_elem).
      intros i [Hi| ->].
      - by apply (desc_ids_sub m), HS.
      - apply list_elem_of_omap. by exists m. }
    simpl. rewrite id_in_false.
    2:{ intros i Hi HiS. apply (Hdisj i); [by apply node_id_all_ids|]. apply Hsub. by left. }
    simpl. rewrite bool_decide_eq_false_2.
    2:{ intros Hk. apply (Hdisj r); [by apply node_id_all_ids|]. apply Hsub. by right. }
    rewrite (IHks IH Hnds Hm), prune_ids_disjoint, replace_node_absent; [done| |].
    + intros Hrk. apply (Hdisj r Hrk). apply Hsub. by right.
    + intros i Hi HiS. apply (Hdisj i Hi). apply Hsub. by left.
Qed.

Lemma id_in_filter (p : node -> bool) (l : list node) (k : node) :
  NoDup (omap node_id l) -> k ∈ l -> (forall x, p x = true -> node_id x <> None) ->
  id_in (omap node_id (List.filter p l)) k = p k.
Proof.
  intros Hnd Hk Hp. unfold id_in. destruct (node_id k) as [i|] eqn:Hi.
  - destruct (p k) eqn:Hpk.
    + apply bool_decide_eq_true_2. apply list_elem_of_omap. exists k. split; [|done].
      apply list_elem_of_In, filter_In. split; [by apply list_elem_of_In|done].
    + apply bool_decide_eq_false_2. intros (x & Hx & Hxi)%list_elem_of_omap.
      apply list_elem_of_In, filter_In in Hx as [Hx Hpx]. apply list_elem_of_In in Hx.
      rewrite (NoDup_omap_unique l x k i Hnd Hx Hk Hxi Hi) in Hpx. congruence.
  - destruct (p k) eqn:Hpk; [|done]. by apply Hp in Hpk.
Qed.

(** With distinct ids, the decompositions of [extract_content] cut off
    exactly the [script], [style], [nav], [header] and [footer] elements of
    the region. *)
Lemma prune_region_gen m u :
  NoDup (omap node_id (descendants m)) -> (u = m \/ u ∈ descendants m) ->
  prune_ids (omap node_id (find_all (is_tag_in removed_tags) m)) u = strip_removed u.
Proof.
  intros Hndd. induction u as [j n a kids IH|st] using node_ind'; intros Hu; [|done].
  rewrite prune_ids_elem, strip_removed_elem. f_equal.
  assert (Hkids : forall k, k ∈ kids -> k ∈ descendants m).
  { intros k Hk. assert (Hk' : k ∈ descendants (Elem j n a kids))
      by (apply elem_of_desc_elem; exists k; split; [done|by left]).
    destruct Hu as [<-|Hu]; [done|]. by apply (desc_trans _ (Elem j n a kids)). }
  clear Hu. induction kids as [|k ks IHks]; [done|]. apply Forall_cons in IH as [IHk IH].
  simpl. unfold find_all.
  rewrite (id_in_filter _ _ k Hndd); [|apply Hkids; by left|].
  2:{ intros [x xn xa xk|st]; [done|]. intros Hx. discriminate Hx. }
  fold (find_all (is_tag_in removed_tags) m).
  destruct (is_tag_in removed_tags k); simpl.
  - apply IHks; [done|]. intros k' Hk'. apply Hkids. by right.
  - rewrite IHk, IHks; [done|done| |].
    + intros k' Hk'. apply Hkids. by right.
    + right. apply Hkids. by left.
Qed.

Lemma prune_region m :
  NoDup (all_ids m) ->
  prune_ids (omap node_id (find_all (is_tag_in removed_tags) m)) m = strip_removed m.
Proof. intros Hnd. apply prune_region_gen; [by apply NoDup_desc_ids|by left]. Qed.

Lemma find_some p t m : find p t = Some m -> m ∈ descendants t /\ p m = true.
Proof.
  unfold find, find_all. destruct (List.filter p (descendants t)) as [|x l] eqn:E; [done|].
  simpl. intros [= ->]. assert (Hin : In m (List.filter p (descendants t))) by (rewrite E; by left).
  apply filter_In in Hin as [Hin Hp]. split; [by apply list_elem_of_In|done].
Qed.

End SoupFacts.

(* ------------------------------------------------------------------ *)
(** ** [extract_content] and the parsed document *)

Section ContentFacts.
Context `{PyLib}.
Import Soup SoupFacts.

Lemma find_elem p soup m :
  find p soup = Some m -> (forall st, p (Text st) = false) ->
  m ∈ descendants soup /\ exists r, node_id m = Some r.
Proof.
  intros Hf Ht. apply find_some in Hf as [Hin Hp]. split; [done|].
  destruct m as [r mn ma mk|st]; [by exists r|]. by rewrite Ht in Hp.
Qed.

Lemma find_main_content_some soup m :
  find_main_content soup = Some m -> m ∈ descendants soup /\ exists r, node_id m = Some r.
Proof.
  unfold find_main_content.
  destruct (find (is_tag "main") soup) as [x|] eqn:H1.
  { intros [= <-]. by apply (find_elem _ _ _ H1). }
  destruct (find (is_tag "article") soup) as [x|] eqn:H2.
  { intros [= <-]. by apply (find_elem _ _ _ H2). }
  destruct (find (is_tag_with_class "div" ["content"; "documentation"; "docs"]%string) soup)
    as [x|] eqn:H3.
  { intros [= <-]. by apply (find_elem _ _ _ H3). }
  intros H4. by apply (find_elem _ _ _ H4).
Qed.

(** C10. [extract_content] changes the parsed document it is given, and
    [scrape] hands that same document to [extract_links]. When the element
    ids are distinct, the document it leaves is the original with every
    [script], [style], [nav], [header] and [footer] element inside the region
    [main_content] cut off together with everything below it, and nothing
    changed outside the region; the Markdown is made from the same cut
    region. *)
Theorem extract_content_mutates (soup : node) (url : string) (soup' : node) (d : doc) :
  NoDup (all_ids soup) ->
  extract_content soup url = Ok (soup', d) ->
  exists m r, find_main_content soup = Some m /\ node_id m = Some r /\
    soup' = replace_node r (strip_removed m) soup /\
    doc_content d = markdownify (strip_removed m).
Proof.
  intros Hnd. unfold extract_content.
  destruct (find_main_content soup) as [m|] eqn:Hf; [|done].
  intros [= <- <-]. destruct (find_main_content_some soup m Hf) as [Hm [r Hr]].
  exists m, r. do 2 (split; [done|]).
  pose proof (NoDup_all_ids_desc soup m Hnd Hm) as Hndm.
  rewrite !decompose_all_prune. split.
  - rewrite (prune_replace _ r m soup Hnd Hm Hr); [by rewrite prune_region|].
    intros i (x & Hx & Hi)%list_elem_of_omap. apply list_elem_of_omap. exists x. split; [|done].
    unfold find_all in Hx. apply list_elem_of_In, filter_In in Hx as [Hx _].
    by apply list_elem_of_In.
  - simpl. by rewrite prune_region.
Qed.

End ContentFacts.

(* ------------------------------------------------------------------ *)
(** ** Examples *)

Lemma offline_start_reachable :
  @reachable offline_lib "https://a.com/docs" 2 docs_cfg offline_start.
Proof. apply (@reach_start offline_lib _ _ _ empty_state); vm_compute; reflexivity. Qed.

Lemma crawl_no_refetch_witness :
  @reachable offline_lib "https://a.com/docs" 2 docs_cfg
    (snd (@scrape_iter offline_lib docs_cfg offline_start)) /\
  (NoDup (http_gets (events (snd (@scrape_iter offline_lib docs_cfg offline_start)))) /\
   (forall x, x ∈ visited_urls (snd (@scrape_iter offline_lib docs_cfg offline_start)) ->
      x ∈ http_gets (events (snd (@scrape_iter offline_lib docs_cfg offline_start)))) /\
   Z.of_nat (size (visited_urls (snd (@scrape_iter offline_lib docs_cfg offline_start))))
     <= Z.max 0 2).
Proof.
  assert (Hr : @reachable offline_lib "https://a.com/docs" 2 docs_cfg
                 (snd (@scrape_iter offline_lib docs_cfg offline_start)))
    by (apply reach_step; [apply offline_start_reachable|vm_compute; reflexivity]).
  split; [exact Hr|]. exact (@crawl_no_refetch offline_lib _ _ _ _ Hr).
Defined.

(** With [max_pages = -1] the crawl starts with an empty [visited], which
    is already larger than [max_pages]. *)
Lemma negative_max_pages_visited :
  @reachable offline_lib "https://a.com/docs" (-1) (mkConfig "https://a.com/docs" "/docs" (-1) "a.com")
    (snd (@scrape_start offline_lib (mkConfig "https://a.com/docs" "/docs" (-1) "a.com") empty_state)) /\
  Z.of_nat (size (visited_urls
    (snd (@scrape_start offline_lib (mkConfig "https://a.com/docs" "/docs" (-1) "a.com") empty_state))))
    > -1.
Proof.
  split.
  - apply (@reach_start offline_lib _ _ _ empty_state); vm_compute; reflexivity.
  - vm_compute. reflexivity.
Qed.

(** The base URL [https://a.com/logo.png] is queued, though a URL ending in
    [.png] is out of scope. *)
Lemma seed_out_of_scope :
  @reachable offline_lib "https://a.com/logo.png" 10 (mkConfig "https://a.com/logo.png" "/logo.png" 10 "a.com")
    (snd (@scrape_start offline_lib (mkConfig "https://a.com/logo.png" "/logo.png" 10 "a.com") empty_state)) /\
  urls_to_visit
    (snd (@scrape_start offline_lib (mkConfig "https://a.com/logo.png" "/logo.png" 10 "a.com") empty_state))
    = ["https://a.com/logo.png"] /\
  ~ @in_scope offline_lib (mkConfig "https://a.com/logo.png" "/logo.png" 10 "a.com") "https://a.com/logo.png".
Proof.
  split; [|split].
  - apply (@reach_start offline_lib _ _ _ empty_state); vm_compute; reflexivity.
  - vm_compute. reflexivity.
  - intros (p & _ & _ & _ & He). vm_compute in He. discriminate He.
Qed.

(** The first iteration on the unreachable site fails as a whole; on the
    site that answers [304], the first iteration visits the base URL and goes
    on as for a [200] answer. *)
Lemma fetch_failure_iteration_witness :
  urls_to_visit offline_start = ["https://a.com/docs"] /\
  ("https://a.com/docs" ∉ visited_urls offline_start) /\
  @scrape_iter offline_lib docs_cfg offline_start =
    (Ok tt, set_events (events offline_start ++
               [LogInfo (Z.of_nat (size (visited_urls offline_start)) + 1)
                  (total_pages offline_start) "https://a.com/docs";
                HttpGet "https://a.com/docs"; LogWarnScrape "https://a.com/docs" RequestException])
              (set_urls_to_visit [] offline_start)) /\
  let s0 := snd (@scrape_start not_modified_lib docs_cfg empty_state) in
  urls_to_visit s0 = ["https://a.com/docs"] /\
  ("https://a.com/docs" ∉ visited_urls s0) /\
  "https://a.com/docs" ∈ visited_urls (snd (@scrape_iter not_modified_lib docs_cfg s0)) /\
  @scrape_iter not_modified_lib docs_cfg s0 = @scrape_iter (status_200 not_modified_lib) docs_cfg s0.
Proof.
  assert (Hq : urls_to_visit offline_start = ["https://a.com/docs"]) by (vm_compute; reflexivity).
  assert (Hv : "https://a.com/docs" ∉ visited_urls offline_start)
    by (apply (bool_decide_eq_false_1 _); vm_compute; reflexivity).
  split; [exact Hq|]. split; [exact Hv|]. split.
  { apply (proj1 (@fetch_failure_iteration offline_lib docs_cfg offline_start _ _ Hq Hv)).
    left; reflexivity. }
  intros s0.
  assert (Hq0 : urls_to_visit s0 = ["https://a.com/docs"]) by (vm_compute; reflexivity).
  assert (Hv0 : "https://a.com/docs" ∉ visited_urls s0)
    by (apply (bool_decide_eq_false_1 _); vm_compute; reflexivity).
  split; [exact Hq0|]. split; [exact Hv0|].
  apply (proj2 (@fetch_failure_iteration not_modified_lib docs_cfg s0 _ _ Hq0 Hv0)
           (mkResponse 304 [] EmptyString)); [reflexivity|simpl; lia].
Defined.

(** On the site of [links_lib], the first iteration queues the one link of
    the base page that is in scope, and drops the links to another host, to
    an image and to a page outside [/docs]. *)
Lemma enqueued_in_scope_witness :
  let s0 := snd (@scrape_start links_lib docs_cfg empty_state) in
  urls_to_visit s0 = ["https://a.com/docs"] /\
  urls_to_visit (snd (@scrape_iter links_lib docs_cfg s0)) = ["https://a.com/docs/next"] /\
  exists new, urls_to_visit (snd (@scrape_iter links_lib docs_cfg s0)) = List.tl (urls_to_visit s0) ++ new /\
    forall x, x ∈ new -> @in_scope links_lib docs_cfg x.
Proof.
  intros s0. split; [vm_compute; reflexivity|]. split; [vm_compute; reflexivity|].
  exact (@enqueued_in_scope links_lib docs_cfg s0).
Defined.

(** On the site that answers [503], the first iteration requests the base
    URL, logs a scraping warning and does not sleep. *)
Lemma answered_failure_no_sleep_witness :
  let s0 := snd (@scrape_start unavailable_lib docs_cfg empty_state) in
  urls_to_visit s0 = ["https://a.com/docs"] /\
  ("https://a.com/docs" ∉ visited_urls s0) /\
  @requests_get unavailable_lib "https://a.com/docs" = Ok (mkResponse 503 [] EmptyString) /\
  existsb is_sleep (events (snd (@scrape_iter unavailable_lib docs_cfg s0))) = false /\
  exists e, events (snd (@scrape_iter unavailable_lib docs_cfg s0)) =
    events s0 ++ [LogInfo (Z.of_nat (size (visited_urls s0)) + 1) (total_pages s0) "https://a.com/docs";
                  HttpGet "https://a.com/docs"; LogWarnScrape "https://a.com/docs" e].
Proof.
  intros s0.
  assert (Hq : urls_to_visit s0 = ["https://a.com/docs"]) by (vm_compute; reflexivity).
  assert (Hv : "https://a.com/docs" ∉ visited_urls s0)
    by (apply (bool_decide_eq_false_1 _); vm_compute; reflexivity).
  split; [exact Hq|]. split; [exact Hv|]. split; [reflexivity|].
  split; [vm_compute; reflexivity|].
  apply (@answered_failure_no_sleep unavailable_lib docs_cfg s0 _ _ (mkResponse 503 [] EmptyString)
           Hq Hv eq_refl).
  left. simpl. lia.
Defined.

(** A [304 Not Modified] answer is not 2xx, yet [raise_for_status] lets it
    through and the URL is added to [visited]. *)
Lemma not_modified_visited :
  @requests_get not_modified_lib "https://a.com/docs" = Ok (mkResponse 304 [] EmptyString) /\
  "https://a.com/docs" ∈
    visited_urls (snd (@scrape_iter not_modified_lib docs_cfg
                         (snd (@scrape_start not_modified_lib docs_cfg empty_state)))).
Proof.
  split; [reflexivity|]. apply (bool_decide_eq_true_1 _). vm_compute. reflexivity.
Qed.

Lemma extract_content_mutates_witness :
  NoDup (all_ids region_page) /\
  @extract_content offline_lib region_page "https://a.com/docs/page" =
    Ok (Elem 0 "[document]" []
          [Elem 1 "body" []
            [Elem 2 "header" [] [Elem 3 "a" [("href", "/docs/home")] [Text "Home"]];
             Elem 4 "main" [] [Elem 7 "p" [] [Elem 8 "a" [("href", "/docs/next")] [Text "Next"]]]]],
        mkDoc "https://a.com/docs/page" "https://a.com/docs/page" EmptyString) /\
  exists m r, find_main_content region_page = Some m /\ Soup.node_id m = Some r /\
    Elem 0 "[document]" []
      [Elem 1 "body" []
        [Elem 2 "header" [] [Elem 3 "a" [("href", "/docs/home")] [Text "Home"]];
         Elem 4 "main" [] [Elem 7 "p" [] [Elem 8 "a" [("href", "/docs/next")] [Text "Next"]]]]]
      = replace_node r (strip_removed m) region_page /\
    doc_content (mkDoc "https://a.com/docs/page" "https://a.com/docs/page" EmptyString)
      = @markdownify offline_lib (strip_removed m).
Proof.
  assert (Hnd : NoDup (all_ids region_page))
    by (apply (bool_decide_eq_true_1 _); vm_compute; reflexivity).
  assert (He : @extract_content offline_lib region_page "https://a.com/docs/page" =
    Ok (Elem 0 "[document]" []
          [Elem 1 "body" []
            [Elem 2 "header" [] [Elem 3 "a" [("href", "/docs/home")] [Text "Home"]];
             Elem 4 "main" [] [Elem 7 "p" [] [Elem 8 "a" [("href", "/docs/next")] [Text "Next"]]]]],
        mkDoc "https://a.com/docs/page" "https://a.com/docs/page" EmptyString))
    by (vm_compute; reflexivity).
  split; [exact Hnd|]. split; [exact He|].
  exact (@extract_content_mutates offline_lib _ _ _ _ Hnd He).
Defined.

(** The links [extract_links] then finds on [region_page]: the one in the
    [<header>] outside the region stays, the one in the [<nav>] inside it is
    gone. *)
Lemma region_page_links :
  match @extract_content offline_lib region_page "https://a.com/docs/page" with
  | Ok (soup', _) => a_hrefs soup' = ["/docs/home"; "/docs/next"]%string
  | Err _ => False
  end.
Proof. vm_compute. reflexivity. Qed.

(* ------------------------------------------------------------------ *)
(** ** [chunk_text] and [embed_documents] *)

Module EmbedFacts.
Import Py Embed EmbedAux.

Lemma div_small_count (x step : Z) : 0 < step -> x <= 0 -> Z.to_nat ((x + step - 1) / step) = 0%nat.
Proof.
  intros Hs Hx. assert ((x + step - 1) / step < 1).
  { apply Z.div_lt_upper_bound; lia. }
  lia.
Qed.

Lemma range_up_seq fuel i stop step :
  0 < step -> stop - i <= Z.of_nat fuel ->
  range_up fuel i stop step =
  map (fun k => i + Z.of_nat k * step) (seq 0 (Z.to_nat ((stop - i + step - 1) / step))).
Proof.
  intros Hs. revert i. induction fuel as [|fuel IH]; intros i Hf.
  - simpl. rewrite div_small_count by lia. done.
  - simpl. destruct (i <? stop) eqn:Hlt.
    + apply Z.ltb_lt in Hlt.
      assert (Hq : (stop - i + step - 1) / step = (stop - i - 1) / step + 1).
      { replace (stop - i + step - 1) with (stop - i - 1 + 1 * step) by lia.
        rewrite Z.div_add by lia. lia. }
      assert (Hq0 : 0 <= (stop - i - 1) / step) by (apply Z.div_pos; lia).
      rewrite Hq, Z2Nat.inj_add by lia. rewrite Nat.add_1_r. simpl.
      rewrite IH by lia. f_equal; [lia|].
      replace (stop - (i + step) + step - 1) with (stop - i - 1) by lia.
      rewrite <- seq_shift, map_map. apply map_ext. intros k. lia.
    + apply Z.ltb_ge in Hlt. rewrite div_small_count by lia. done.
Qed.

(** [chunk_loop] keeps the non-empty chunks. *)
Lemma chunk_loop_filter words cs starts acc :
  chunk_loop words cs starts acc =
  acc ++ List.filter (fun c => negb (String.eqb c EmptyString))
            (map (fun i => Py.join space (py_slice words i (i + cs))) starts).
Proof.
  revert acc. induction starts as [|i starts IH]; intros acc; simpl.
  - by rewrite app_nil_r.
  - destruct (negb _); rewrite IH; [by rewrite <- app_assoc|done].
Qed.

Lemma py_slice_window {A} (l : list A) (i : nat) (cs : Z) :
  0 < cs -> (i <= length l)%nat ->
  py_slice l (Z.of_nat i) (Z.of_nat i + cs) = take (Z.to_nat cs) (drop i l).
Proof.
  intros Hcs Hi. unfold py_slice, slice_bound.
  rewrite !(proj2 (Z.ltb_ge _ _)) by lia.
  replace (Z.to_nat (Z.min (Z.of_nat i) (Z.of_nat (length l)))) with i by lia.
  destruct (decide (Z.to_nat cs <= length l - i)%nat).
  - f_equal. lia.
  - rewrite (take_ge (drop i l) (Z.to_nat cs)) by (rewrite length_drop; lia).
    apply take_ge. rewrite length_drop. lia.
Qed.

Lemma str_app_nil_r (x : string) : (x ++ EmptyString)%string = x.
Proof. induction x as [|a x IH]; [done|]. rewrite !StrFacts.str_app_cons. f_equal. exact IH. Qed.

Lemma str_app_assoc (x y z : string) : (x ++ (y ++ z))%string = ((x ++ y) ++ z)%string.
Proof. induction x as [|a x IH]; [done|]. rewrite !StrFacts.str_app_cons. f_equal. exact IH. Qed.

Lemma no_space_app x y : no_space (x ++ y) = no_space x && no_space y.
Proof. induction x as [|a x IH]; simpl; [done|]. rewrite IH. by destruct (negb _), (no_space x). Qed.

Lemma words_aux_ok cur s :
  no_space cur = true -> Forall word_ok (Soup.words_aux cur s).
Proof.
  revert cur. induction s as [|a s IH]; intros cur Hc; simpl.
  - destruct (String.eqb_spec cur EmptyString); repeat constructor; done.
  - destruct (Py.isspace a) eqn:Ha.
    + apply Forall_app. split; [|by apply IH].
      destruct (String.eqb_spec cur EmptyString); repeat constructor; done.
    + apply IH. rewrite no_space_app, Hc. simpl. by rewrite Ha.
Qed.

Lemma split_ok s : Forall word_ok (split s).
Proof. by apply words_aux_ok. Qed.

Lemma words_aux_app cur w rest :
  no_space w = true -> Soup.words_aux cur (w ++ rest) = Soup.words_aux (cur ++ w) rest.
Proof.
  revert cur. induction w as [|a w IH]; intros cur Hw; simpl.
  - by rewrite str_app_nil_r.
  - simpl in Hw. apply andb_true_iff in Hw as [Ha Hw]. apply negb_true_iff in Ha.
    rewrite Ha, IH by done. by rewrite <- str_app_assoc.
Qed.

Lemma split_join ws : Forall word_ok ws -> split (Py.join space ws) = ws.
Proof.
  unfold split, Soup.words. induction ws as [|w ws IH]; intros Hws; [done|].
  apply Forall_cons in Hws as [[Hne Hw] Hws].
  destruct ws as [|w' ws'].
  - cbn [Py.join]. rewrite <- (str_app_nil_r w) at 1. rewrite words_aux_app by done.
    rewrite StrFacts.str_app_nil. cbn [Soup.words_aux].
    destruct (String.eqb_spec w EmptyString); done.
  - change (Py.join space (w :: w' :: ws')) with (w ++ space ++ Py.join space (w' :: ws'))%string.
    rewrite words_aux_app by done. rewrite StrFacts.str_app_nil. unfold space at 1.
    rewrite StrFacts.str_app_cons, StrFacts.str_app_nil. cbn [Soup.words_aux].
    replace (Py.isspace " ") with true by reflexivity.
    rewrite (proj2 (String.eqb_neq w EmptyString) Hne). cbn [app].
    f_equal. by apply IH.
Qed.

Lemma join_nonempty ws : Forall word_ok ws -> ws <> [] -> Py.join space ws <> EmptyString.
Proof.
  intros Hws Hne Hj. apply split_join in Hws. rewrite Hj in Hws. by symmetry in Hws.
Qed.

Lemma filter_all {A} (p : A -> bool) l : Forall (fun x => p x = true) l -> List.filter p l = l.
Proof. induction 1 as [|x l Hx _ IH]; simpl; [done|]. by rewrite Hx, IH. Qed.

Lemma count_nat (n st : nat) :
  (0 < st)%nat ->
  Z.to_nat ((Z.of_nat n - 0 + Z.of_nat st - 1) / Z.of_nat st) = ((n + st - 1) / st)%nat.
Proof.
  intros Hst. replace (Z.of_nat n - 0 + Z.of_nat st - 1) with (Z.of_nat (n + st - 1)) by lia.
  rewrite <- Nat2Z.inj_div. apply Nat2Z.id.
Qed.

Lemma count_lt (n st k : nat) :
  (0 < st)%nat -> (k < (n + st - 1) / st)%nat -> (k * st < n)%nat.
Proof.
  intros Hst Hk.
  assert (k + 1 <= (n + st - 1) / st)%nat as Hk1 by lia.
  apply (Nat.mul_le_mono_r _ _ st) in Hk1.
  pose proof (Nat.Div0.mul_div_le (n + st - 1) st). nia.
Qed.

Lemma count_ge (n st : nat) :
  (0 < st)%nat -> (n <= (n + st - 1) / st * st)%nat.
Proof.
  intros Hst. pose proof (Nat.div_mod (n + st - 1) st ltac:(lia)) as Hd.
  pose proof (Nat.mod_upper_bound (n + st - 1) st ltac:(lia)). nia.
Qed.

Lemma chunk_text_windows_eq (text : string) (chunk_size overlap : Z) :
  0 < chunk_size -> overlap < chunk_size ->
  let words := split text in
  let step := Z.to_nat (chunk_size - overlap) in
  let windows := map (fun k => take (Z.to_nat chunk_size) (drop (k * step) words))
                   (seq 0 ((length words + step - 1) / step)) in
  chunk_text text chunk_size overlap = Ok (map (Py.join space) windows) /\
  map split (map (Py.join space) windows) = windows.
Proof.
  intros Hcs Hov words step windows.
  assert (Hst : (0 < step)%nat) by lia.
  assert (Hwin : Forall (Forall word_ok) windows).
  { apply Forall_forall. intros w Hw%list_elem_of_In. apply in_map_iff in Hw as (k & <- & _).
    apply Forall_take, Forall_drop, split_ok. }
  split.
  - unfold chunk_text, py_range. fold words.
    rewrite (proj2 (Z.eqb_neq _ _)) by lia. rewrite (proj2 (Z.ltb_lt _ _)) by lia. simpl.
    rewrite range_up_seq by lia.
    replace (chunk_size - overlap) with (Z.of_nat step) by lia.
    rewrite count_nat by done. f_equal.
    rewrite chunk_loop_filter, app_nil_l, map_map.
    rewrite (map_ext_in _ (fun k => Py.join space (take (Z.to_nat chunk_size) (drop (k * step) words)))).
    2:{ intros k Hk%in_seq. replace (0 + Z.of_nat k * Z.of_nat step) with (Z.of_nat (k * step)) by lia.
        rewrite py_slice_window; [done|done|].
        pose proof (count_lt (length words) step k Hst ltac:(lia)). lia. }
    rewrite <- map_map. apply filter_all. apply Forall_forall.
    intros c Hc%list_elem_of_In. apply in_map_iff in Hc as (w & <- & Hw). apply negb_true_iff, String.eqb_neq.
    apply join_nonempty; [eapply Forall_forall in Hwin; [exact Hwin|by apply list_elem_of_In]|].
    apply in_map_iff in Hw as (k & <- & Hk%in_seq).
    pose proof (count_lt (length words) step k Hst ltac:(lia)).
    intros Hnil. apply (f_equal length) in Hnil. rewrite length_take, length_drop in Hnil. simpl in Hnil. lia.
  - rewrite map_map. transitivity (map id windows); [|apply map_id].
    apply map_ext_in. intros w Hw. apply split_join. eapply Forall_forall in Hwin; [exact Hwin|by apply list_elem_of_In].
Qed.

(** X1: with [0 < chunk_size] and [overlap < chunk_size], [chunk_text]
    returns one chunk per start [0, step, 2 step, ...] below the number of
    words, where [step = chunk_size - overlap]: the [chunk_size] words from
    that start (fewer at the end), joined with single spaces. Splitting a
    chunk again gives back exactly its words. *)
Theorem chunk_text_windows (text : string) (chunk_size overlap : Z) :
  0 < chunk_size -> overlap < chunk_size ->
  let words := split text in
  let step := Z.to_nat (chunk_size - overlap) in
  let windows := map (fun k => take (Z.to_nat chunk_size) (drop (k * step) words))
                   (seq 0 ((length words + step - 1) / step)) in
  chunk_text text chunk_size overlap = Ok (map (Py.join space) windows) /\
  map split (map (Py.join space) windows) = windows.
Proof. exact (chunk_text_windows_eq text chunk_size overlap). Qed.

Lemma concat_windows {A} (l : list A) (st m : nat) :
  concat (map (fun k => take st (drop (k * st) l)) (seq 0 m)) = take (m * st) l.
Proof.
  induction m as [|m IH]; [done|].
  rewrite seq_S, map_app, concat_app, IH. simpl. rewrite app_nil_r, take_take_drop.
  f_equal. lia.
Qed.

Lemma drop_take_comm {A} (l : list A) (n m : nat) :
  (n <= m)%nat -> drop n (take m l) = take (m - n) (drop n l).
Proof. intros Hnm. rewrite take_drop_commute. f_equal. f_equal. lia. Qed.

(** X2: with [0 <= overlap < chunk_size], no word of the text is lost or
    repeated: the first [chunk_size - overlap] words of each chunk, put one
    after the other, are the words of the text. *)
Theorem chunk_text_cover (text : string) (chunk_size overlap : Z) (chunks : list string) :
  0 <= overlap -> overlap < chunk_size ->
  chunk_text text chunk_size overlap = Ok chunks ->
  concat (map (fun c => take (Z.to_nat (chunk_size - overlap)) (split c)) chunks) = split text.
Proof.
  intros Hov Hcs Hc.
  destruct (chunk_text_windows_eq text chunk_size overlap ltac:(lia) Hcs) as [Hw Hs].
  rewrite Hw in Hc. injection Hc as <-.
  rewrite <- (map_map split (take _)), Hs, map_map.
  set (st := Z.to_nat (chunk_size - overlap)).
  rewrite (map_ext _ (fun k => take st (drop (k * st) (split text)))).
  2:{ intros k. rewrite take_take. f_equal. lia. }
  rewrite concat_windows. apply take_ge. apply count_ge. lia.
Qed.

Lemma lookup_map_list {A B} (f : A -> B) (l : list A) (i : nat) : map f l !! i = f <$> l !! i.
Proof. revert i. induction l as [|x l IH]; intros [|i]; simpl; auto. Qed.

(** X3: with [0 <= overlap < chunk_size], two consecutive chunks overlap
    by [overlap] words: the words of a chunk after its first
    [chunk_size - overlap] ones are the first [overlap] words of the next
    chunk. *)
Theorem chunk_text_overlap (text : string) (chunk_size overlap : Z) (chunks : list string)
    (k : nat) (c1 c2 : string) :
  0 <= overlap -> overlap < chunk_size ->
  chunk_text text chunk_size overlap = Ok chunks ->
  chunks !! k = Some c1 -> chunks !! S k = Some c2 ->
  drop (Z.to_nat (chunk_size - overlap)) (split c1) = take (Z.to_nat overlap) (split c2).
Proof.
  intros Hov Hcs Hc H1 H2.
  destruct (chunk_text_windows_eq text chunk_size overlap ltac:(lia) Hcs) as [Hw Hs].
  rewrite Hw in Hc. injection Hc as Hc. rewrite Hc in Hs.
  set (st := Z.to_nat (chunk_size - overlap)) in *.
  set (n := ((length (split text) + st - 1) / st)%nat) in *.
  assert (Hwin : forall j c, chunks !! j = Some c ->
      split c = take (Z.to_nat chunk_size) (drop (j * st) (split text))).
  { intros j c Hj. pose proof (f_equal (fun l => l !! j) Hs) as Hl. simpl in Hl.
    rewrite lookup_map_list, Hj in Hl. simpl in Hl. rewrite lookup_map_list in Hl.
    destruct (seq 0 n !! j) eqn:Hsj; [|done]. apply lookup_seq in Hsj as [-> _].
    by injection Hl. }
  rewrite (Hwin k c1 H1), (Hwin (S k) c2 H2).
  rewrite drop_take_comm by lia. rewrite drop_drop, take_take.
  replace (Z.to_nat chunk_size - st)%nat with (Z.to_nat overlap) by lia.
  replace (k * st + st)%nat with (S k * st)%nat by lia.
  f_equal. lia.
Qed.

(** X4: when [chunk_size <= overlap], [chunk_text] raises [ValueError]
    (from [range]) if the two are equal, and returns no chunk at all if
    [chunk_size < overlap], whatever the text. *)
Theorem chunk_text_nonpositive_step (text : string) (chunk_size overlap : Z) :
  chunk_size <= overlap ->
  chunk_text text chunk_size overlap =
  if chunk_size =? overlap then Err ValueError else Ok [].
Proof.
  intros Hle. unfold chunk_text, py_range.
  destruct (Z.eqb_spec chunk_size overlap) as [->|Hne].
  - by rewrite Z.sub_diag.
  - rewrite (proj2 (Z.eqb_neq _ _)) by lia. rewrite (proj2 (Z.ltb_ge _ _)) by lia.
    simpl. replace (Z.to_nat (0 - Z.of_nat (length (split text)))) with 0%nat by lia. done.
Qed.

Lemma chunk_text_default (text : string) :
  exists cs, chunk_text text 300 50 = Ok cs.
Proof. unfold chunk_text, py_range. simpl. eauto. Qed.

Lemma collect_doc_eq i d cs j C M I :
  collect_doc i d cs j C M I =
  (C ++ cs,
   M ++ imap (fun k _ => mkMeta (doc_url d) (doc_title d) (j + k)) cs,
   I ++ imap (fun k _ => chunk_id i (j + k)) cs).
Proof.
  revert j C M I. induction cs as [|c cs IH]; intros j C M I; simpl.
  - by rewrite !app_nil_r.
  - rewrite IH, <- !app_assoc. simpl. rewrite Nat.add_0_r.
    f_equal; [f_equal|]; f_equal; f_equal; apply imap_ext; intros k x _; unfold compose; simpl;
      f_equal; lia.
Qed.

Lemma map_imap {A B C} (h : B -> C) (f : nat -> A -> B) (l : list A) :
  map h (imap f l) = imap (fun i x => h (f i x)) l.
Proof.
  revert f. induction l as [|x l IH]; intros f; [done|].
  rewrite !imap_cons. simpl. f_equal. apply IH.
Qed.

Lemma imap_snd {A} (l : list A) : imap (fun _ x => x) l = l.
Proof.
  induction l as [|x l IH]; [done|]. rewrite imap_cons. f_equal. exact IH.
Qed.

Lemma collect_chunks_eq i docs C M I :
  collect_chunks i docs C M I =
  Ok (C ++ map (fun e => e.1.1) (doc_entries i docs),
      M ++ map (fun e => e.1.2) (doc_entries i docs),
      I ++ map (fun e => e.2) (doc_entries i docs)).
Proof.
  revert i C M I. induction docs as [|d docs IH]; intros i C M I.
  - simpl. by rewrite !app_nil_r.
  - destruct (chunk_text_default (doc_content d)) as [cs Hcs].
    assert (Hd : doc_chunks d = cs) by (unfold doc_chunks; by rewrite Hcs).
    cbn [collect_chunks doc_entries]. rewrite Hcs. cbn [res_bind]. rewrite collect_doc_eq, IH, Hd.
    rewrite !map_app, !app_assoc, !map_imap. simpl. rewrite imap_snd. done.
Qed.

Lemma py_slice_pos {A} (l : list A) (a b : Z) :
  0 <= a <= b -> py_slice l a b = take (Z.to_nat (b - a)) (drop (Z.to_nat a) l).
Proof.
  intros Hab. unfold py_slice, slice_bound.
  rewrite !(proj2 (Z.ltb_ge _ _)) by lia.
  destruct (decide (Z.to_nat a <= length l)%nat).
  - replace (Z.to_nat (Z.min a (Z.of_nat (length l)))) with (Z.to_nat a) by lia.
    destruct (decide (Z.to_nat b <= length l)%nat).
    + f_equal. lia.
    + rewrite take_ge by (rewrite length_drop; lia).
      symmetry. apply take_ge. rewrite length_drop. lia.
  - replace (Z.to_nat (Z.min a (Z.of_nat (length l)))) with (length l) by lia.
    rewrite drop_ge by lia. rewrite (drop_ge l (Z.to_nat a)) by lia. by rewrite !take_nil.
Qed.

Lemma batch_slice {A} (l : list A) (n k : nat) :
  (k * 100 < n)%nat ->
  py_slice l (Z.of_nat k * 100) (Z.min (Z.of_nat k * 100 + 100) (Z.of_nat n)) =
  take 100 (drop (k * 100) (take n l)).
Proof.
  intros Hk. rewrite py_slice_pos by lia.
  rewrite drop_take_comm by lia. rewrite take_take.
  replace (Z.to_nat (Z.of_nat k * 100)) with (k * 100)%nat by lia. f_equal. lia.
Qed.

Lemma batch_concat {A} (l : list A) (n : nat) :
  concat (map (fun k => py_slice l (Z.of_nat k * 100) (Z.min (Z.of_nat k * 100 + 100) (Z.of_nat n)))
            (seq 0 ((n + 100 - 1) / 100))) = take n l.
Proof.
  rewrite (map_ext_in _ (fun k => take 100 (drop (k * 100) (take n l)))).
  2:{ intros k Hk%in_seq. apply batch_slice. apply count_lt; lia. }
  rewrite concat_windows, take_take. f_equal. pose proof (count_ge n 100). lia.
Qed.

Lemma removelast_map_seq {A} (f : nat -> A) (m : nat) :
  removelast (map f (seq 0 m)) = map f (seq 0 (m - 1)).
Proof.
  destruct m as [|m]; [done|]. rewrite seq_S, map_app. cbn [map]. rewrite removelast_last.
  f_equal. f_equal. lia.
Qed.

Lemma count_nat100 (n : nat) :
  Z.to_nat ((Z.of_nat n - 0 + 100 - 1) / 100) = ((n + 100 - 1) / 100)%nat.
Proof. apply (count_nat n 100). lia. Qed.

Lemma batches_layout {vec : Type} (entries : list (string * meta * string)) (emb : list vec) :
  let calls := map (batch_call (map (fun e => e.1.1) entries) emb (map (fun e => e.1.2) entries)
                  (map (fun e => e.2) entries) (Z.of_nat (length entries)))
                (batch_starts (length entries)) in
  concat (map add_documents calls) = map (fun e => e.1.1) entries /\
  concat (map add_metadatas calls) = map (fun e => e.1.2) entries /\
  concat (map add_ids calls) = map (fun e => e.2) entries /\
  concat (map add_embeddings calls) = take (length entries) emb /\
  Forall (fun c => (1 <= length (add_documents c) <= 100)%nat /\
                   length (add_metadatas c) = length (add_documents c) /\
                   length (add_ids c) = length (add_documents c)) calls /\
  Forall (fun c => length (add_documents c) = 100%nat) (removelast calls).
Proof.
  intros calls. unfold calls, batch_starts. clear calls.
  set (n := length entries).
  rewrite !map_map. unfold batch_call, batch_size.
  cbn [add_documents add_metadatas add_ids add_embeddings].
  assert (Hz : forall k : nat, 0 + Z.of_nat k * 100 = Z.of_nat k * 100) by (intros; lia).
  setoid_rewrite Hz.
  assert (Hn1 : length (map (fun e : string * meta * string => e.1.1) entries) = n) by (by rewrite length_map).
  assert (Hn2 : length (map (fun e : string * meta * string => e.1.2) entries) = n) by (by rewrite length_map).
  assert (Hn3 : length (map (fun e : string * meta * string => e.2) entries) = n) by (by rewrite length_map).
  split; [rewrite batch_concat; apply take_ge; lia|].
  split; [rewrite batch_concat; apply take_ge; lia|].
  split; [rewrite batch_concat; apply take_ge; lia|].
  split; [apply batch_concat|].
  split.
  - apply Forall_forall. intros c Hc%list_elem_of_In. apply in_map_iff in Hc as (k & <- & Hk%in_seq).
    cbn [add_documents add_metadatas add_ids].
    pose proof (count_lt n 100 k ltac:(lia) ltac:(lia)) as Hlt.
    rewrite !batch_slice by done. rewrite !length_take, !length_drop, !length_take.
    rewrite Hn1, Hn2, Hn3. lia.
  - rewrite removelast_map_seq. apply Forall_forall.
    intros c Hc%list_elem_of_In. apply in_map_iff in Hc as (k & <- & Hk%in_seq).
    cbn [add_documents].
    pose proof (count_lt n 100 (S k) ltac:(lia) ltac:(lia)) as Hlt.
    rewrite batch_slice by lia. rewrite length_take, length_drop, length_take, Hn1. lia.
Qed.

(** The batch loop makes the calls of the batches in order, up to the first
    one that raises; it ends normally only after all of them, and does so
    when [collection.add] never raises. *)
Lemma add_batches_spec {vec db : Type} (add : add_call -> db -> res unit * db)
    (C : list string) (E : list vec) (M : list meta) (I : list string) (n : Z)
    (starts : list Z) (c : db) :
  let '(calls, r, _) := add_batches add C E M I n starts c in
  calls `prefix_of` map (batch_call C E M I n) starts /\
  (r = Ok tt -> calls = map (batch_call C E M I n) starts) /\
  ((forall call c0, fst (add call c0) = Ok tt) -> r = Ok tt).
Proof.
  revert c. induction starts as [|i starts IH]; intros c; [done|].
  cbn [add_batches map]. fold (batch_call C E M I n i).
  destruct (add (batch_call C E M I n i) c) as [[[]|e] c'] eqn:Ha.
  - specialize (IH c'). destruct (add_batches add C E M I n starts c') as [[calls r] c''].
    destruct IH as (Hp & Hok & Hall). split; [by apply prefix_cons|].
    split; [intros Hr; by rewrite (Hok Hr)|done].
  - split; [apply prefix_cons, prefix_nil|]. split; [done|].
    intros Hall. specialize (Hall (batch_call C E M I n i) c). rewrite Ha in Hall. discriminate.
Qed.

Lemma embed_documents_eq {vec db : Type} (encode : list string -> res (list vec))
    (add : add_call -> db -> res unit * db) (documents : list doc) (c : db) :
  let entries := doc_entries 0 documents in
  embed_documents encode add documents c =
    match encode (map (fun e => e.1.1) entries) with
    | Err e => ([], Err e, c)
    | Ok emb =>
        add_batches add (map (fun e => e.1.1) entries) emb (map (fun e => e.1.2) entries)
          (map (fun e => e.2) entries) (Z.of_nat (length entries)) (batch_starts (length entries)) c
    end.
Proof.
  intros entries. unfold embed_documents. rewrite collect_chunks_eq. cbn [app]. fold entries.
  cbv iota beta. destruct (encode _) as [emb|e]; [|done].
  unfold py_range, batch_size.
  rewrite (proj2 (Z.eqb_neq 100 0)) by lia. rewrite (proj2 (Z.ltb_lt 0 100)) by lia.
  cbv iota beta. rewrite range_up_seq by lia. rewrite length_map, count_nat100. done.
Qed.

Lemma prefix_concat_map {A B} (f : A -> list B) (l1 l2 : list A) :
  l1 `prefix_of` l2 -> concat (map f l1) `prefix_of` concat (map f l2).
Proof. intros [k ->]. rewrite map_app, concat_app. by eexists. Qed.

Lemma prefix_map_app {A B} (f : A -> B) (l1 l2 : list A) :
  l1 `prefix_of` l2 -> map f l1 `prefix_of` map f l2.
Proof. intros [k ->]. rewrite map_app. by eexists. Qed.

Lemma NoDup_prefix {A} (l1 l2 : list A) : l1 `prefix_of` l2 -> NoDup l2 -> NoDup l1.
Proof. intros [k ->] Hnd. by apply NoDup_app in Hnd as [? _]. Qed.

(** Whatever [encode] and [collection.add] do, the ids and the metadata of
    the calls [embed_documents] makes are an initial part of those of the
    chunks it collects. *)
Lemma embed_documents_calls_prefix {vec db : Type} (encode : list string -> res (list vec))
    (add : add_call -> db -> res unit * db) (documents : list doc) (c : db) :
  let calls := (embed_documents encode add documents c).1.1 in
  concat (map add_ids calls) `prefix_of` map (fun e => e.2) (doc_entries 0 documents) /\
  concat (map add_metadatas calls) `prefix_of` map (fun e => e.1.2) (doc_entries 0 documents).
Proof.
  intros calls. unfold calls. clear calls. rewrite embed_documents_eq.
  set (entries := doc_entries 0 documents).
  destruct (encode _) as [emb|e]; [|split; apply prefix_nil].
  match goal with |- context [add_batches add ?C ?E ?M ?I ?n ?st ?c0] =>
    pose proof (add_batches_spec add C E M I n st c0) as Hs;
    destruct (add_batches add C E M I n st c0) as [[calls r] c'] end.
  destruct Hs as (Hp & _ & _). simpl.
  destruct (batches_layout entries emb) as (_ & Hm & Hi & _).
  split; [rewrite <- Hi|rewrite <- Hm]; by apply prefix_concat_map.
Qed.

(** X5: [embed_documents] chunks every document and encodes all the chunks
    in one call. When [encode] raises, no [collection.add] call is made and
    the exception propagates. Otherwise its batches store every chunk of
    every document in order, with the metadata [{url, title, chunk_index}]
    and the id [doc_{doc_idx}_chunk_{chunk_idx}] of each chunk and the
    encoder's rows for them; every batch holds 1 to 100 chunks and as many
    metadata and ids, and every batch but the last holds exactly 100. The
    calls it makes are these batches in order, up to the first one that
    raises; it returns normally only after all of them, which it does
    whenever [collection.add] does not raise. *)
Theorem embed_documents_batches {vec db : Type} (encode : list string -> res (list vec))
    (add : add_call -> db -> res unit * db) (documents : list doc) (c : db) :
  let entries := doc_entries 0 documents in
  let all_chunks := map (fun e => e.1.1) entries in
  let '(calls, r, c') := embed_documents encode add documents c in
  (forall e, encode all_chunks = Err e -> calls = [] /\ r = Err e /\ c' = c) /\
  (forall emb, encode all_chunks = Ok emb ->
   exists batches,
     concat (map add_documents batches) = all_chunks /\
     concat (map add_metadatas batches) = map (fun e => e.1.2) entries /\
     concat (map add_ids batches) = map (fun e => e.2) entries /\
     concat (map add_embeddings batches) = take (length entries) emb /\
     Forall (fun b => (1 <= length (add_documents b) <= 100)%nat /\
                      length (add_metadatas b) = length (add_documents b) /\
                      length (add_ids b) = length (add_documents b)) batches /\
     Forall (fun b => length (add_documents b) = 100%nat) (removelast batches) /\
     calls `prefix_of` batches /\ (r = Ok tt -> calls = batches) /\
     ((forall call c0, fst (add call c0) = Ok tt) -> r = Ok tt)).
Proof.
  intros entries all_chunks. rewrite embed_documents_eq. fold entries all_chunks.
  destruct (encode all_chunks) as [emb|e] eqn:He.
  - match goal with |- context [add_batches add ?C ?E ?M ?I ?n ?st ?c0] =>
      pose proof (add_batches_spec add C E M I n st c0) as Hs;
      destruct (add_batches add C E M I n st c0) as [[calls r] c'] end.
    split; [intros e' He'; congruence|].
    intros emb' [= <-].
    destruct (batches_layout entries emb) as (L1 & L2 & L3 & L4 & L5 & L6).
    destruct Hs as (P1 & P2 & P3). eexists. split_and!; [exact L1|exact L2|exact L3|exact L4|
      exact L5|exact L6|exact P1|exact P2|exact P3].
  - split; [intros e' [= <-]; done|]. intros emb' He'; congruence.
Qed.

Lemma has_pretty_N_go (x : N) (s : string) :
  Py.has "_" s = false -> Py.has "_" (pretty_N_go x s) = false.
Proof.
  revert s. induction (N.lt_wf_0 x) as [x _ IH]; intros s Hs.
  destruct (decide (x = 0)%N) as [->|Hx]; [by rewrite pretty_N_go_0|].
  rewrite pretty_N_go_step by lia. apply IH; [apply N.div_lt; lia|].
  cbn [Py.has]. rewrite Hs, orb_false_r.
  unfold pretty_N_char. by repeat case_match.
Qed.

Lemma has_pretty (n : nat) : Py.has "_" (pretty n) = false.
Proof.
  unfold pretty, pretty_nat, pretty, pretty_N. case_decide; [done|].
  by apply has_pretty_N_go.
Qed.

Lemma app_sep_inj (c : ascii) (a a' r r' : string) :
  Py.has c a = false -> Py.has c a' = false ->
  (a ++ String c r)%string = (a' ++ String c r')%string -> a = a' /\ r = r'.
Proof.
  revert a'. induction a as [|x a IH]; intros [|x' a'] Ha Ha' E;
    rewrite ?StrFacts.str_app_nil, ?StrFacts.str_app_cons in E; cbn [Py.has] in Ha, Ha'.
  - by injection E.
  - injection E as -> _. by rewrite StrFacts.char_eqb_refl in Ha'.
  - injection E as <- _. by rewrite StrFacts.char_eqb_refl in Ha.
  - injection E as -> E. apply orb_false_iff in Ha as [_ Ha], Ha' as [_ Ha'].
    destruct (IH a' Ha Ha' E) as [-> ->]. done.
Qed.

Lemma str_app_inv_l (p x y : string) : (p ++ x)%string = (p ++ y)%string -> x = y.
Proof.
  induction p as [|a p IH]; [done|]. rewrite !StrFacts.str_app_cons. intros E. injection E. apply IH.
Qed.

Lemma chunk_id_inj i j i' j' : chunk_id i j = chunk_id i' j' -> i = i' /\ j = j'.
Proof.
  unfold chunk_id. intros E. apply str_app_inv_l in E.
  apply app_sep_inj in E as [Ei Ej]; [|apply has_pretty..].
  injection Ej as Ej. split; by apply (inj pretty).
Qed.

Lemma doc_entries_ids (i : nat) (docs : list doc) e :
  e ∈ doc_entries i docs -> exists i' j, (i <= i')%nat /\ e.2 = chunk_id i' j.
Proof.
  revert i. induction docs as [|d docs IH]; intros i He; simpl in He; [by apply elem_of_nil in He|].
  apply elem_of_app in He as [He|He].
  - apply elem_of_lookup_imap_1 in He as (j & c & -> & _). exists i, j. done.
  - destruct (IH (S i) He) as (i' & j & Hi & ->). exists i', j. split; [lia|done].
Qed.

Lemma NoDup_imap_idx {A B} (f : nat -> A -> B) (l : list A) :
  (forall j j' x y, f j x = f j' y -> j = j') -> NoDup (imap f l).
Proof.
  revert f. induction l as [|x l IH]; intros f Hf; [constructor|].
  rewrite imap_cons. constructor.
  - intros Hin. apply elem_of_lookup_imap_1 in Hin as (j & y & Hj & _).
    unfold compose in Hj. by apply Hf in Hj.
  - apply IH. intros j j' x' y' E. unfold compose in E. apply Hf in E. lia.
Qed.

Lemma NoDup_doc_entries_ids (i : nat) (docs : list doc) :
  NoDup (map (fun e : string * meta * string => e.2) (doc_entries i docs)).
Proof.
  revert i. induction docs as [|d docs IH]; intros i; simpl; [constructor|].
  rewrite map_app, map_imap. simpl. apply NoDup_app. split; [|split; [|apply IH]].
  - apply NoDup_imap_idx. intros j j' x y E. by apply chunk_id_inj in E as [_ ->].
  - intros x Hx1 Hx2. apply elem_of_lookup_imap_1 in Hx1 as (j & c & -> & _).
    apply list_elem_of_In, in_map_iff in Hx2 as (e & He & Hin%list_elem_of_In).
    destruct (doc_entries_ids (S i) docs e Hin) as (i' & j' & Hi & He').
    rewrite He' in He. apply chunk_id_inj in He as [-> _]. lia.
Qed.

(** X6: the ids [embed_documents] passes to [collection.add] are pairwise
    distinct, across all the calls it makes, whatever [encode] and
    [collection.add] do. *)
Theorem embed_documents_ids_unique {vec db : Type} (encode : list string -> res (list vec))
    (add : add_call -> db -> res unit * db) (documents : list doc) (c : db) :
  NoDup (concat (map add_ids (embed_documents encode add documents c).1.1)).
Proof.
  destruct (embed_documents_calls_prefix encode add documents c) as [Hi _].
  eapply NoDup_prefix; [exact Hi|]. apply NoDup_doc_entries_ids.
Qed.


Lemma doc_entries_meta (i : nat) (docs : list doc) (e : string * meta * string) :
  e ∈ doc_entries i docs -> exists d j, d ∈ docs /\ e.1.2 = mkMeta (doc_url d) (doc_title d) j.
Proof.
  revert i. induction docs as [|d docs IH]; intros i He; simpl in He; [by apply elem_of_nil in He|].
  apply elem_of_app in He as [He|He].
  - apply elem_of_lookup_imap_1 in He as (j & c & -> & _). exists d, j. split; [left|done].
  - destruct (IH (S i) He) as (d' & j & Hd & Hm). exists d', j. split; [by right|done].
Qed.

Lemma NoDup_doc_entries_meta (i : nat) (docs : list doc) :
  NoDup (map doc_url docs) ->
  NoDup (map (fun e : string * meta * string => (meta_url e.1.2, meta_chunk_index e.1.2))
             (doc_entries i docs)).
Proof.
  revert i. induction docs as [|d docs IH]; intros i Hnd; simpl; [constructor|].
  simpl in Hnd. apply NoDup_cons in Hnd as [Hd Hnd].
  rewrite map_app, map_imap. simpl. apply NoDup_app. split; [|split; [|by apply IH]].
  - apply NoDup_imap_idx. intros j j' x y E. by injection E.
  - intros x Hx1 Hx2. apply elem_of_lookup_imap_1 in Hx1 as (j & c & -> & _).
    apply list_elem_of_In, in_map_iff in Hx2 as (e & He & Hin%list_elem_of_In).
    destruct (doc_entries_meta (S i) docs e Hin) as (d' & j' & Hd' & Hm).
    rewrite Hm in He. injection He as Eu _. apply Hd.
    rewrite <- Eu. by apply list_elem_of_fmap_2.
Qed.

End EmbedFacts.

(* ------------------------------------------------------------------ *)
(** ** The crawl's documents, queue, progress log and PDF handling *)

Section CrawlDocFacts.
Context `{PyLib}.
Import Py.

Ltac no_doc := exists []; rewrite ?app_nil_r; split_and!; [done|constructor|done|set_solver|simpl; lia].

Lemma scrape_url_docs (cfg : config) (url : string) (s : state) :
  let '(r, s') := scrape_url cfg url s in
  exists ds, documents s' = documents s ++ ds /\
    Forall (fun d => doc_url d = url /\ strip (doc_content d) <> EmptyString) ds /\
    (ds <> [] -> url ∈ visited_urls s') /\
    visited_urls s ⊆ visited_urls s' /\ (length ds <= 1)%nat.
Proof.
  unfold scrape_url, bind, lift, emit, modify, ret, append_document.
  destruct (requests_get url) as [resp|e]; cbn beta iota.
  2:{ no_doc. }
  destruct (raise_for_status resp) as [[]|e]; cbn beta iota.
  2:{ no_doc. }
  destruct (endswith url ".pdf" || contains _ "application/pdf").
  - match goal with |- context [extract_pdf_content ?c ?u ?st] =>
      destruct (extract_pdf_content_spec c u st) as (d & evs & Hx & _ & Hu & _) end.
    rewrite Hx. cbn beta iota.
    destruct (negb (strip (doc_content d) =? "")%string) eqn:Hb; cbn beta iota.
    + exists [d]. simpl. split; [done|]. split.
      * constructor; [|constructor]. split; [done|].
        apply negb_true_iff, String.eqb_neq in Hb. done.
      * split; [intros _; set_solver|]. split; [set_solver|simpl; lia].
    + no_doc.
  - destruct (html_parse (resp_content resp)) as [soup|e]; cbn beta iota.
    2:{ no_doc. }
    destruct (extract_content soup url) as [[soup' d]|e] eqn:Hec; cbn beta iota.
    2:{ no_doc. }
    assert (Hdu : doc_url d = url).
    { unfold extract_content in Hec. destruct (find_main_content soup); [|done].
      by injection Hec as _ <-. }
    destruct (negb (strip (doc_content d) =? "")%string) eqn:Hb; unfold modify; cbn beta iota;
    match goal with |- context [extract_links cfg soup' url ?st] =>
      pose proof (extract_links_spec cfg soup' url st) as Hl;
      destruct (extract_links cfg soup' url st) as [[links|e] s3] eqn:Hrun end;
    destruct Hl as (Hs3 & _ & _); cbn beta iota; rewrite Hs3; simpl.
    + exists [d]. apply negb_true_iff, String.eqb_neq in Hb.
      split; [done|]. split; [constructor; [split; done|constructor]|]. split; [set_solver|]. split; [set_solver|simpl; lia].
    + exists [d]. apply negb_true_iff, String.eqb_neq in Hb.
      split; [done|]. split; [constructor; [split; done|constructor]|]. split; [set_solver|]. split; [set_solver|simpl; lia].
    + no_doc.
    + no_doc.
Qed.

Lemma docs_inv_extend (s s' : state) (url : string) (ds : list doc) :
  docs_inv s -> url ∉ visited_urls s ->
  documents s' = documents s ++ ds ->
  Forall (fun d => doc_url d = url /\ strip (doc_content d) <> EmptyString) ds ->
  (ds <> [] -> url ∈ visited_urls s') -> visited_urls s ⊆ visited_urls s' ->
  (length ds <= 1)%nat -> docs_inv s'.
Proof.
  intros [Hnd Hd] Hurl Hdocs Hds Hv Hsub Hlen. unfold docs_inv. rewrite Hdocs.
  destruct ds as [|d [|d' ds']]; [| |simpl in Hlen; lia].
  - rewrite app_nil_r. split; [done|]. intros d0 Hd0. destruct (Hd d0 Hd0). split; [set_solver|done].
  - apply Forall_cons in Hds as [[Hdu Hds] _].
    split.
    + rewrite map_app. simpl. apply NoDup_app. split; [done|]. split; [|apply NoDup_singleton].
      intros x Hx ->%list_elem_of_singleton.
      apply list_elem_of_In, in_map_iff in Hx as (d0 & Hd0u & Hd0%list_elem_of_In).
      destruct (Hd d0 Hd0) as [Hv0 _]. rewrite Hd0u, Hdu in Hv0. done.
    + intros d0 [Hd0| ->%list_elem_of_singleton]%elem_of_app.
      * destruct (Hd d0 Hd0). split; [set_solver|done].
      * rewrite Hdu. split; [by apply Hv|done].
Qed.

Lemma scrape_iter_docs_inv (cfg : config) (s : state) :
  docs_inv s -> docs_inv (snd (scrape_iter cfg s)).
Proof.
  intros Hinv. unfold scrape_iter, bind, pop0, gets, emit, modify, ret.
  destruct (urls_to_visit s) as [|url rest] eqn:Hq; [done|]. cbn beta iota.
  cbn [set_events set_urls_to_visit visited_urls events total_pages].
  destruct (bool_decide (url ∈ visited_urls s)) eqn:Hv.
  - destruct Hinv as [H1 H2]. split; [done|]. done.
  - apply bool_decide_eq_false in Hv. unfold try_except.
    match goal with |- context [scrape_url cfg url ?sb] =>
      pose proof (scrape_url_docs cfg url sb) as Hs;
      destruct (scrape_url cfg url sb) as [[[]|e] sc] end;
    destruct Hs as (ds & Hdocs & Hds & Hvis & Hsub & Hlen); simpl in Hdocs, Hsub.
    + simpl. by eapply docs_inv_extend.
    + simpl. eapply (docs_inv_extend s _ url ds); done.
Qed.

Lemma reachable_docs_inv (b : string) (mp : Z) (cfg : config) (s : state) :
  reachable b mp cfg s -> docs_inv s.
Proof.
  induction 1 as [cfg s0 s1 Hi Hs|cfg s _ IH Hg].
  - apply init_spec in Hi as [_ ->]. apply scrape_start_spec in Hs as (n & _ & _ & _ & _ & _ & Hd).
    unfold docs_inv. rewrite Hd. simpl. split; [constructor|]. intros d Hd'. by apply elem_of_nil in Hd'.
  - by apply scrape_iter_docs_inv.
Qed.

(** X7: the documents a finished crawl returns have pairwise distinct
    URLs; each of them was visited and none has blank content. *)
Theorem crawl_documents_distinct (b : string) (mp : Z) (fuel : nat) (docs : list doc) (s' : state) :
  crawl b mp fuel = Some (Ok docs, s') ->
  NoDup (map doc_url docs) /\
  forall d, d ∈ docs -> doc_url d ∈ visited_urls s' /\ strip (doc_content d) <> EmptyString.
Proof.
  intros Hc. destruct (crawl_reachable b mp fuel docs s' Hc) as (cfg & Hr & _ & ->).
  by apply (reachable_docs_inv b mp cfg).
Qed.

(** X8: an iteration of the loop never removes anything: [visited] and
    [queued] only grow, and the documents and the events so far stay a
    prefix of the new ones. With an empty queue ([pop(0)] raises) the
    state is unchanged. *)
Theorem scrape_iter_monotone (cfg : config) (s : state) :
  let s' := snd (scrape_iter cfg s) in
  visited_urls s ⊆ visited_urls s' /\ queued_urls s ⊆ queued_urls s' /\
  documents s `prefix_of` documents s' /\ events s `prefix_of` events s' /\
  (urls_to_visit s = [] -> s' = s).
Proof.
  intros s'. destruct (urls_to_visit s) as [|url rest] eqn:Hq.
  - subst s'. unfold scrape_iter, bind, pop0. rewrite Hq. simpl. done.
  - pose proof (scrape_iter_spec cfg s url rest Hq) as Hs. cbv zeta in Hs. subst s'.
    destruct (scrape_iter cfg s) as [r s2]. simpl.
    destruct Hs as [_ [[_ ->] | [_ (evs & tail & new & ds & _ & _ & Hev & Hvis & Hqu & _ & _ & _ & Hdoc & _)]]].
    + simpl. split_and!; [done|done|done| |done]. eexists. done.
    + split_and!.
      * destruct Hvis as [[-> _] | ->]; set_solver.
      * done.
      * rewrite Hdoc. eexists. done.
      * rewrite Hev. eexists. done.
      * done.
Qed.

(** X9: in every state of a crawl, every visited URL has been queued, and
    the pending URLs are distinct, queued and not visited; so the skip of an
    already visited URL in the loop never fires. *)
Theorem crawl_queue_invariant (b : string) (mp : Z) (cfg : config) (s : state) :
  reachable b mp cfg s ->
  visited_urls s ⊆ queued_urls s /\ NoDup (urls_to_visit s) /\
  forall x, x ∈ urls_to_visit s -> x ∈ queued_urls s /\ x ∉ visited_urls s.
Proof.
  intros Hr. destruct (reachable_crawl_inv b mp cfg s Hr) as (_ & Hnd & Hpq & Hgq & Hvg & _).
  split_and!.
  - intros x Hx. by apply Hgq, Hvg.
  - done.
  - intros x Hx. destruct (Hpq x Hx) as [Hq Hg]. split; [done|]. intros Hv. by apply Hg, Hvg.
Qed.

Lemma scrape_url_pdf (cfg : config) (url : string) (s : state) :
  endswith url ".pdf" = true ->
  let s' := snd (scrape_url cfg url s) in
  urls_to_visit s' = urls_to_visit s /\ queued_urls s' = queued_urls s.
Proof.
  intros Hpdf s'. subst s'.
  unfold scrape_url, bind, lift, emit, modify, ret, append_document.
  destruct (requests_get url) as [resp|e]; cbn beta iota; [|done].
  destruct (raise_for_status resp) as [[]|e]; cbn beta iota; [|done].
  rewrite Hpdf. cbn [orb].
  match goal with |- context [extract_pdf_content ?c ?u ?st] =>
    destruct (extract_pdf_content_spec c u st) as (d & evs & Hx & _) end.
  rewrite Hx. cbn beta iota.
  destruct (negb _); cbn beta iota; done.
Qed.

(** X10: a URL ending in [.pdf] adds nothing to the crawl's frontier: after
    the iteration that dequeues it, the queue is the rest of the old queue
    and [queued] is unchanged, whether or not its fetch succeeds. *)
Theorem scrape_iter_pdf_no_links (cfg : config) (s : state) (url : string) (rest : list string) :
  urls_to_visit s = url :: rest -> endswith url ".pdf" = true ->
  let s' := snd (scrape_iter cfg s) in
  urls_to_visit s' = rest /\ queued_urls s' = queued_urls s.
Proof.
  intros Hq Hpdf s'. subst s'. unfold scrape_iter, bind, pop0, gets, emit, modify, ret.
  rewrite Hq. cbn beta iota.
  cbn [set_events set_urls_to_visit visited_urls events total_pages].
  destruct (bool_decide (url ∈ visited_urls s)); [done|].
  unfold try_except.
  match goal with |- context [scrape_url cfg url ?sb] =>
    pose proof (scrape_url_pdf cfg url sb Hpdf) as Hs;
    destruct (scrape_url cfg url sb) as [[[]|e] sc] end;
  simpl in Hs |- *; done.
Qed.

Lemma join_empty_iff (sep : string) (xs : list string) :
  Forall (fun x => x <> EmptyString) xs -> Py.join sep xs = EmptyString <-> xs = [].
Proof.
  intros Hne. destruct xs as [|x [|y xs]]; [done| |].
  - inversion Hne; subst. simpl. split; [done|discriminate].
  - inversion Hne; subst. simpl. destruct x as [|a x]; [done|].
    rewrite StrFacts.str_app_cons. split; discriminate.
Qed.

Lemma filter_nil_iff {A} (f : A -> bool) (l : list A) :
  List.filter f l = [] <-> Forall (fun x => f x = false) l.
Proof.
  induction l as [|x l IH]; simpl; [split; constructor|].
  destruct (f x) eqn:Hf.
  - split; [discriminate|]. intros Hl. inversion Hl; congruence.
  - rewrite IH. split; [by constructor|]. by inversion 1.
Qed.


(** X11: [extract_pdf_content] never raises and keeps the URL. It logs a
    warning exactly when reading the PDF fails. Its content is empty
    exactly when reading fails or every page's text is blank. A non-empty
    metadata title is the document's title. *)
Theorem extract_pdf_content_blank (c url : string) (s : state) :
  exists d, extract_pdf_content c url s =
    (Ok d, match pdf_read c with
           | Ok _ => s
           | Err e => set_events (events s ++ [LogWarnPdf url e]) s
           end) /\
    doc_url d = url /\
    (doc_content d = EmptyString <->
       match pdf_read c with
       | Ok rd => Forall (fun p => strip p = EmptyString) (pdf_pages rd)
       | Err _ => True
       end) /\
    (forall rd t, pdf_read c = Ok rd -> pdf_meta_title rd = Some t ->
       t <> EmptyString -> doc_title d = t).
Proof.
  unfold extract_pdf_content. destruct (pdf_read c) as [rd|e].
  - eexists. split; [reflexivity|]. split; [done|]. split.
    + cbn [doc_content]. rewrite join_empty_iff, filter_nil_iff.
      * apply Forall_iff. intros p. rewrite negb_false_iff, String.eqb_eq. done.
      * apply Forall_forall. intros p Hp. apply list_elem_of_In, filter_In in Hp as [_ Hp].
        intros ->. done.
    + intros rd' t [= <-] Ht Hne. cbn [doc_title]. rewrite Ht.
      by rewrite (proj2 (String.eqb_neq t EmptyString) Hne).
  - eexists. split; [reflexivity|]. split; [done|]. split; [done|]. done.
Qed.

Lemma scrape_url_total (cfg : config) (url : string) (s : state) :
  let '(r, s') := scrape_url cfg url s in
  total_pages s' = total_pages s \/
  exists k, total_pages s' = Z.min (max_pages cfg) (Z.of_nat k).
Proof.
  unfold scrape_url, bind, lift, emit, modify, ret, append_document.
  destruct (requests_get url) as [resp|e]; cbn beta iota; [|by left].
  destruct (raise_for_status resp) as [[]|e]; cbn beta iota; [|by left].
  destruct (endswith url ".pdf" || contains _ "application/pdf").
  - match goal with |- context [extract_pdf_content ?c ?u ?st] =>
      destruct (extract_pdf_content_spec c u st) as (d & evs & Hx & _) end.
    rewrite Hx. cbn beta iota.
    destruct (negb (strip (doc_content d) =? "")%string); cbn beta iota; right; eauto.
  - destruct (html_parse (resp_content resp)) as [soup|e]; cbn beta iota; [|by left].
    destruct (extract_content soup url) as [[soup' d]|e]; cbn beta iota; [|by left].
    destruct (negb (strip (doc_content d) =? "")%string); unfold modify; cbn beta iota;
    match goal with |- context [extract_links cfg soup' url ?st] =>
      pose proof (extract_links_spec cfg soup' url st) as Hl;
      destruct (extract_links cfg soup' url st) as [[links|e] s3] eqn:Hrun end;
    destruct Hl as (Hs3 & _ & _); cbn beta iota;
    [right; eexists; reflexivity | left; rewrite Hs3; reflexivity
    |right; eexists; reflexivity | left; rewrite Hs3; reflexivity].
Qed.

Lemma scrape_iter_total (cfg : config) (s : state) :
  let s' := snd (scrape_iter cfg s) in
  total_pages s' = total_pages s \/
  exists k, total_pages s' = Z.min (max_pages cfg) (Z.of_nat k).
Proof.
  intros s'. subst s'. unfold scrape_iter, bind, pop0, gets, emit, modify, ret.
  destruct (urls_to_visit s) as [|url rest]; cbn beta iota; [by left|].
  cbn [set_events set_urls_to_visit visited_urls events total_pages].
  destruct (bool_decide (url ∈ visited_urls _)); [by left|].
  unfold try_except.
  match goal with |- context [scrape_url cfg url ?sb] =>
    pose proof (scrape_url_total cfg url sb) as Hs;
    destruct (scrape_url cfg url sb) as [[[]|e] sc] end;
  simpl in Hs |- *; done.
Qed.

Lemma reachable_log_bounds (b : string) (mp : Z) (cfg : config) (s : state) :
  reachable b mp cfg s -> log_bounds mp s.
Proof.
  intros Hr. pose proof (reachable_max_pages b mp cfg s Hr) as Hm.
  induction Hr as [cfg s0 s1 Hi Hs|cfg s Hr IH Hg].
  - apply init_spec in Hi as [_ ->].
    unfold scrape_start, bind, lift, modify in Hs.
    destruct (normalize_url (base_url cfg)); [|done]. injection Hs as <-. simpl.
    unfold log_bounds. cbn [total_pages set_total_pages set_queued set_urls_to_visit events]. split_and!; [lia|lia|]. intros n tot u Hin. by apply elem_of_nil in Hin.
  - specialize (IH Hm). subst mp. destruct IH as (Ht & Ht0 & Hlog).
    destruct (loop_guard_true cfg s Hg) as (url & rest & Hq & Hlt).
    pose proof (scrape_iter_total cfg s) as Htot.
    pose proof (scrape_iter_spec cfg s url rest Hq) as Hsp. cbv zeta in Htot, Hsp.
    destruct (scrape_iter cfg s) as [r s'] eqn:E. simpl in Htot |- *.
    assert (Hevs : exists tl, events s' = events s ++
              LogInfo (Z.of_nat (size (visited_urls s)) + 1) (total_pages s) url :: tl /\
              forall n tot u, LogInfo n tot u ∉ tl).
    { destruct Hsp as [_ [[_ ->] | [_ (evs & tail & new & ds & Hw & Htl & Hev & _)]]].
      - exists []. split; [done|]. intros n tot u Hin. by apply elem_of_nil in Hin.
      - exists (HttpGet url :: evs ++ tail). split; [done|].
        intros n tot u Hin. apply elem_of_cons in Hin as [Hin|Hin]; [discriminate|].
        apply elem_of_app in Hin as [Hin|Hin].
        + rewrite Forall_forall in Hw. destruct (Hw _ Hin) as (? & ? & ?). discriminate.
        + destruct Htl as [->|[e ->]]; apply list_elem_of_singleton in Hin; discriminate. }
    destruct Hevs as (tl & Hev & Htl). unfold log_bounds.
    split_and!.
    + destruct Htot as [->|[k ->]]; lia.
    + intros _. destruct Htot as [->|[k ->]]; lia.
    + intros n tot u Hin. rewrite Hev in Hin.
      apply elem_of_app in Hin as [Hin|Hin]; [by apply (Hlog n tot u)|].
      apply elem_of_cons in Hin as [[= -> -> ->]|Hin]; [lia|]. by apply (Htl n tot u) in Hin.
Qed.

(** X12: in every state of a crawl, every progress line
    ["Scraping ({n}/{total}): {url}"] logged so far has
    [1 <= n <= max_pages] and [0 <= total <= max_pages]. *)
Theorem crawl_progress_log_bounds (b : string) (mp : Z) (cfg : config) (s : state) :
  reachable b mp cfg s ->
  forall n tot u, LogInfo n tot u ∈ events s -> 1 <= n <= mp /\ 0 <= tot <= mp.
Proof. intros Hr. apply (reachable_log_bounds b mp cfg s Hr). Qed.

(** X13: with [max_pages <= 0] the crawl ends at once: it makes no request,
    logs nothing and returns no document (or raises, if the URL cannot be
    parsed). *)
Theorem crawl_nonpositive_max_pages (b : string) (mp : Z) (fuel : nat) :
  mp <= 0 ->
  exists r s', crawl b mp (S fuel) = Some (r, s') /\ events s' = [] /\
    forall docs, r = Ok docs -> docs = [].
Proof.
  intros Hmp. unfold crawl, scrape.
  destruct (init b mp) as [[cfg s0]|e] eqn:Hi.
  2:{ eexists _, _. split; [done|]. split; [done|]. done. }
  apply init_spec in Hi as [Hm ->].
  destruct (scrape_start cfg _) as [[[]|e] s1] eqn:Hs.
  - apply scrape_start_spec in Hs as (n & _ & _ & _ & Hv & Hev & Hd).
    simpl in Hv, Hev, Hd.
    assert (Hg : loop_guard cfg s1 = false).
    { unfold loop_guard. rewrite Hv, Hm, size_empty. simpl.
      rewrite (proj2 (Z.ltb_ge (Z.of_nat 0) mp)) by lia. apply andb_false_r. }
    simpl. rewrite Hg. eexists _, _. split; [done|]. split; [done|].
    intros docs [= <-]. done.
  - unfold scrape_start, bind, lift, modify in Hs.
    destruct (normalize_url (base_url cfg)); [done|]. injection Hs as _ <-.
    eexists _, _. split; [done|]. split; [done|]. done.
Qed.

End CrawlDocFacts.

(* ------------------------------------------------------------------ *)
(** ** [index]: the crawl followed by [embed_documents] *)

Section IndexFacts.
Context `{PyLib}.
Import Py Embed EmbedAux EmbedFacts.

(** X14: [index] (the CLI command and the UI's [index_documentation])
    scrapes and then embeds: for every finished crawl, whatever [encode] and
    [collection.add] do, the [(url, chunk_index)] pairs of the metadata
    passed to [collection.add] are pairwise distinct, and every such URL was
    visited by the crawl. *)
Theorem index_metadata_unique {vec db : Type} (encode : list string -> res (list vec))
    (add : add_call -> db -> res unit * db)
    (b : string) (mp : Z) (fuel : nat) (docs : list doc) (s' : state) (c : db) :
  crawl b mp fuel = Some (Ok docs, s') ->
  let calls := (embed_documents encode add docs c).1.1 in
  NoDup (map (fun m => (meta_url m, meta_chunk_index m)) (concat (map add_metadatas calls))) /\
  forall m, m ∈ concat (map add_metadatas calls) -> meta_url m ∈ visited_urls s'.
Proof.
  intros Hc calls. destruct (crawl_reachable b mp fuel docs s' Hc) as (cfg & Hr & _ & ->).
  destruct (reachable_docs_inv b mp cfg s' Hr) as [Hnd Hin].
  destruct (embed_documents_calls_prefix encode add (documents s') c) as [_ Hm].
  fold calls in Hm. split.
  - eapply NoDup_prefix; [by apply prefix_map_app|].
    rewrite map_map. by apply NoDup_doc_entries_meta.
  - intros m Hm'. eapply elem_of_prefix in Hm'; [|exact Hm].
    apply list_elem_of_In, in_map_iff in Hm' as (e & <- & He%list_elem_of_In).
    destruct (doc_entries_meta 0 _ e He) as (d & j & Hd & ->). simpl. by apply Hin.
Qed.


End IndexFacts.

(* ------------------------------------------------------------------ *)
(** ** Examples: chunking, the one-page site and the crawl's bookkeeping *)

Module EmbedExamples.
Import Py Embed EmbedAux EmbedFacts.

(** The seven words of ["a b c d e f g"] in chunks of 3 words with an
    overlap of 1. *)
Lemma chunk_text_windows_witness :
  0 < 3 /\ 1 < 3 /\ chunk_text "a b c d e f g" 3 1 = Ok ["a b c"; "c d e"; "e f g"; "g"].
Proof.
  split; [lia|]. split; [lia|].
  destruct (chunk_text_windows "a b c d e f g" 3 1 ltac:(lia) ltac:(lia)) as [Hc _].
  rewrite Hc. vm_compute. reflexivity.
Defined.

Lemma chunk_text_cover_witness :
  0 <= 1 /\ 1 < 3 /\
  chunk_text "a b c d e f g" 3 1 = Ok ["a b c"; "c d e"; "e f g"; "g"] /\
  concat (map (fun c => take (Z.to_nat (3 - 1)) (split c)) ["a b c"; "c d e"; "e f g"; "g"]) =
  split "a b c d e f g".
Proof.
  assert (Hc : chunk_text "a b c d e f g" 3 1 = Ok ["a b c"; "c d e"; "e f g"; "g"])
    by (vm_compute; reflexivity).
  split; [lia|]. split; [lia|]. split; [exact Hc|].
  exact (chunk_text_cover "a b c d e f g" 3 1 _ ltac:(lia) ltac:(lia) Hc).
Defined.

Lemma chunk_text_overlap_witness :
  0 <= 1 /\ 1 < 3 /\
  chunk_text "a b c d e f g" 3 1 = Ok ["a b c"; "c d e"; "e f g"; "g"] /\
  ["a b c"; "c d e"; "e f g"; "g"] !! 0%nat = Some "a b c" /\
  ["a b c"; "c d e"; "e f g"; "g"] !! 1%nat = Some "c d e" /\
  drop (Z.to_nat (3 - 1)) (split "a b c") = take (Z.to_nat 1) (split "c d e").
Proof.
  assert (Hc : chunk_text "a b c d e f g" 3 1 = Ok ["a b c"; "c d e"; "e f g"; "g"])
    by (vm_compute; reflexivity).
  split; [lia|]. split; [lia|]. split; [exact Hc|]. split; [reflexivity|]. split; [reflexivity|].
  exact (chunk_text_overlap "a b c d e f g" 3 1 _ 0 "a b c" "c d e"
           ltac:(lia) ltac:(lia) Hc eq_refl eq_refl).
Defined.

(** An overlap larger than the chunk size: no chunk. *)
Lemma chunk_text_nonpositive_step_witness :
  2 <= 3 /\ chunk_text "a b c" 2 3 = Ok [].
Proof.
  split; [lia|]. rewrite (chunk_text_nonpositive_step "a b c" 2 3 ltac:(lia)). reflexivity.
Defined.

(** The one-page site, indexed with the length of a chunk as its
    embedding, in a collection that records the calls it accepts. *)
Lemma index_metadata_unique_witness :
  exists docs s',
    @crawl one_page_lib "https://a.com/docs" 2 5 = Some (Ok docs, s') /\
    let calls := (embed_documents (fun cs => Ok (map String.length cs))
                    (fun call db => (Ok tt, db ++ [call])) docs []).1.1 in
    calls <> [] /\
    NoDup (map (fun m => (meta_url m, meta_chunk_index m)) (concat (map add_metadatas calls))) /\
    forall m, m ∈ concat (map add_metadatas calls) -> meta_url m ∈ visited_urls s'.
Proof.
  destruct (@crawl one_page_lib "https://a.com/docs" 2 5) as [[[docs|e] s']|] eqn:E;
    [|vm_compute in E; discriminate..].
  pose proof (@index_metadata_unique one_page_lib _ _ (fun cs => Ok (map String.length cs))
                (fun call db => (Ok tt, db ++ [call])) _ _ _ docs s' [] E) as Hx.
  exists docs, s'. split; [done|]. split; [|exact Hx].
  vm_compute in E. injection E as <- _. vm_compute. discriminate.
Defined.

(** A collection that refuses every [collection.add] call: the first batch
    is attempted, its exception raised, and the batch is the first of the
    planned ones, which hold the document's one chunk. *)
Lemma embed_documents_batches_witness :
  embed_documents (fun cs => Ok (map String.length cs)) (fun _ (db : list nat) => (Err ChromaError, db))
    [mkDoc "https://a.com/docs" "Docs" "hello world"] [] =
    ([mkAdd ["hello world"%string] [11%nat] [mkMeta "https://a.com/docs" "Docs" 0] ["doc_0_chunk_0"%string]],
     Err ChromaError, []) /\
  exists batches,
    [mkAdd ["hello world"%string] [11%nat] [mkMeta "https://a.com/docs" "Docs" 0] ["doc_0_chunk_0"%string]]
      `prefix_of` batches /\
    concat (map add_ids batches) = ["doc_0_chunk_0"%string].
Proof.
  assert (E : embed_documents (fun cs => Ok (map String.length cs))
                (fun _ (db : list nat) => (Err ChromaError, db))
                [mkDoc "https://a.com/docs" "Docs" "hello world"] [] =
              ([mkAdd ["hello world"%string] [11%nat] [mkMeta "https://a.com/docs" "Docs" 0]
                  ["doc_0_chunk_0"%string]], Err ChromaError, []))
    by (vm_compute; reflexivity).
  split; [exact E|].
  pose proof (embed_documents_batches (fun cs => Ok (map String.length cs))
                (fun _ (db : list nat) => (Err ChromaError, db))
                [mkDoc "https://a.com/docs" "Docs" "hello world"] []) as Hx.
  cbv zeta in Hx. rewrite E in Hx. cbv iota beta in Hx. destruct Hx as [_ Hx].
  destruct (Hx _ eq_refl) as (batches & _ & _ & Hi & _ & _ & _ & Hp & _).
  exists batches. split; [exact Hp|]. rewrite Hi. vm_compute. reflexivity.
Defined.


End EmbedExamples.

(** The one-page site, crawled with [max_pages = 2]: one document. *)
Lemma crawl_documents_distinct_witness :
  exists docs s', @crawl one_page_lib "https://a.com/docs" 2 5 = Some (Ok docs, s') /\
    docs <> [] /\
    NoDup (map doc_url docs) /\
    forall d, d ∈ docs -> doc_url d ∈ visited_urls s' /\ Py.strip (doc_content d) <> EmptyString.
Proof.
  destruct (@crawl one_page_lib "https://a.com/docs" 2 5) as [[[docs|e] s']|] eqn:E;
    [|vm_compute in E; discriminate..].
  exists docs, s'. split; [done|].
  split; [vm_compute in E; injection E as <- _; discriminate|].
  exact (@crawl_documents_distinct one_page_lib _ _ _ docs s' E).
Defined.

Lemma crawl_queue_invariant_witness :
  @reachable offline_lib "https://a.com/docs" 2 docs_cfg offline_start /\
  urls_to_visit offline_start <> [] /\
  (visited_urls offline_start ⊆ queued_urls offline_start /\ NoDup (urls_to_visit offline_start) /\
   forall x, x ∈ urls_to_visit offline_start ->
     x ∈ queued_urls offline_start /\ x ∉ visited_urls offline_start).
Proof.
  split; [exact offline_start_reachable|]. split; [vm_compute; discriminate|].
  exact (@crawl_queue_invariant offline_lib _ _ _ _ offline_start_reachable).
Defined.

(** A queue holding one PDF URL, on the one-page site. *)
Definition pdf_queue_state : state :=
  mkState ∅ ∅ [] ["https://a.com/docs/guide.pdf"] 0 [].

Lemma scrape_iter_pdf_no_links_witness :
  urls_to_visit pdf_queue_state = ["https://a.com/docs/guide.pdf"] /\
  Py.endswith "https://a.com/docs/guide.pdf" ".pdf" = true /\
  (urls_to_visit (snd (@scrape_iter one_page_lib docs_cfg pdf_queue_state)) = [] /\
   queued_urls (snd (@scrape_iter one_page_lib docs_cfg pdf_queue_state)) =
   queued_urls pdf_queue_state).
Proof.
  split; [reflexivity|]. split; [reflexivity|].
  exact (@scrape_iter_pdf_no_links one_page_lib docs_cfg pdf_queue_state _ [] eq_refl eq_refl).
Defined.

(** After the first iteration on the unreachable site, the log holds the
    progress line ["Scraping (1/1): https://a.com/docs"]. *)
Lemma crawl_progress_log_bounds_witness :
  @reachable offline_lib "https://a.com/docs" 2 docs_cfg
    (snd (@scrape_iter offline_lib docs_cfg offline_start)) /\
  LogInfo 1 1 "https://a.com/docs" ∈ events (snd (@scrape_iter offline_lib docs_cfg offline_start)) /\
  (1 <= 1 <= 2 /\ 0 <= 1 <= 2).
Proof.
  assert (Hr : @reachable offline_lib "https://a.com/docs" 2 docs_cfg
                 (snd (@scrape_iter offline_lib docs_cfg offline_start)))
    by (apply reach_step; [apply offline_start_reachable|vm_compute; reflexivity]).
  assert (Hin : LogInfo 1 1 "https://a.com/docs" ∈
                  events (snd (@scrape_iter offline_lib docs_cfg offline_start)))
    by (vm_compute; left).
  split; [exact Hr|]. split; [exact Hin|].
  exact (@crawl_progress_log_bounds offline_lib _ _ _ _ Hr 1 1 _ Hin).
Defined.

Lemma crawl_nonpositive_max_pages_witness :
  0 <= 0 /\
  exists r s', @crawl one_page_lib "https://a.com/docs" 0 1 = Some (r, s') /\ events s' = [] /\
    forall docs, r = Ok docs -> docs = [].
Proof.
  split; [lia|]. exact (@crawl_nonpositive_max_pages one_page_lib "https://a.com/docs" 0 0 ltac:(lia)).
Defined.
